(** * Favicon resolver: [apps/web/app/favicon/[domain]/route.ts]

    A shallow embedding of the two variants of the route handler [GET]
    (Variant A: [runtime = 'nodejs'], with the Keyv result cache; Variant B:
    [runtime = 'edge'], no cache) and the properties stated about them.

    Conventions of the model.
    - JavaScript strings are [string]s, one [ascii] for each UTF-16 code
      unit: the model covers the strings whose code units are below 256.
      On those, indexing, [includes], [split], the character classes and the
      dot of the regular expressions (line terminators: LF and CR) and the
      validity of a header value are as in JavaScript.  Case mapping is
      defined for the ASCII letters only.  The statements about the letter
      of the placeholder, and those that a response is built from a content
      type found in an [href] or in the cache, are stated for ASCII text
      ([Str.ascii_text]), where nothing depends on how characters beyond
      ASCII are represented.
    - The [headers] of a [Response] are those of the init object that the
      handler hands to the constructor, names and values as written;
      [new_Response] is the constructor, which throws on a header value that
      is not valid.
    - The handler is a program over the calls it makes to its surroundings
      (clock, URL parser, cache, discovery, proxy, fetch, base64 decoder,
      console); [run] executes it against a [World] that answers those calls
      and records them in a trace.  The cache is the module-level [Keyv]
      instance: a finite map from key to value and expiry time. *)

From Stdlib Require Import ZArith Ascii String DecimalString Lia Bool.
From stdpp Require Import gmap strings list.

Local Open Scope Z_scope.

(** ** Strings *)

Module Str.

Definition code (c : ascii) : N := N_of_ascii c.

Definition in_range (lo hi : N) (c : ascii) : bool :=
  ((lo <=? code c) && (code c <=? hi))%N.

Definition is_lower (c : ascii) : bool := in_range 97 122 c.
Definition is_upper (c : ascii) : bool := in_range 65 90 c.
Definition is_digit (c : ascii) : bool := in_range 48 57 c.

(** [String.prototype.toUpperCase] and [toLowerCase], for ASCII text: the
    letters [a-z] and [A-Z] are mapped, every other character is left as it
    is.  That is what JavaScript does of a character whose code is below
    128; above, JavaScript follows the Unicode case mapping, which these
    functions do not, so they stand for the JavaScript functions on ASCII
    text only. *)
Definition upper_char (c : ascii) : ascii :=
  if is_lower c then ascii_of_N (code c - 32) else c.
Definition lower_char (c : ascii) : ascii :=
  if is_upper c then ascii_of_N (code c + 32) else c.

Fixpoint map (f : ascii -> ascii) (s : string) : string :=
  match s with
  | EmptyString => EmptyString
  | String c s' => String (f c) (map f s')
  end.

Definition toUpperCase : string -> string := map upper_char.
Definition toLowerCase : string -> string := map lower_char.

(** [s.charAt(i)]: the one-character string at index [i], or the empty
    string when [i] is out of range. *)
Definition charAt (i : nat) (s : string) : string := substring i 1 s.

(** [s.startsWith(p)]. *)
Fixpoint startsWith (p s : string) : bool :=
  match p, s with
  | EmptyString, _ => true
  | String a p', String b s' => Ascii.eqb a b && startsWith p' s'
  | String _ _, EmptyString => false
  end.

(** What follows the prefix [p] in [s], when [s] starts with [p]. *)
Fixpoint strip_prefix (p s : string) : option string :=
  match p, s with
  | EmptyString, _ => Some s
  | String a p', String b s' => if Ascii.eqb a b then strip_prefix p' s' else None
  | String _ _, EmptyString => None
  end.

(** [s.includes(needle)]. *)
Fixpoint includes (needle s : string) : bool :=
  startsWith needle s ||
  match s with
  | EmptyString => false
  | String _ s' => includes needle s'
  end.

(** [s.split(sep)] for a one-character separator: never the empty list. *)
Fixpoint split (sep : ascii) (s : string) : list string :=
  match s with
  | EmptyString => [EmptyString]
  | String c s' =>
      if Ascii.eqb c sep then EmptyString :: split sep s'
      else match split sep s' with
           | h :: t => String c h :: t
           | [] => [String c EmptyString]
           end
  end.

Fixpoint forallb (p : ascii -> bool) (s : string) : bool :=
  match s with
  | EmptyString => true
  | String c s' => p c && forallb p s'
  end.

(** ASCII text: every character has a code below 128. *)
Definition is_ascii (c : ascii) : bool := (code c <? 128)%N.
Definition ascii_text (s : string) : bool := forallb is_ascii s.

(** All the suffixes of [s], the longest first, the empty one last. *)
Fixpoint suffixes (s : string) : list string :=
  s :: match s with
       | EmptyString => []
       | String _ s' => suffixes s'
       end.

(** Decimal rendering of an integer, as [Number.prototype.toString]. *)
Definition of_Z (z : Z) : string := NilZero.string_of_int (Z.to_int z).

Definition dquote : string := String (ascii_of_N 34) EmptyString.
Definition newline : string := String (ascii_of_N 10) EmptyString.
Definition quoted (s : string) : string := dquote +:+ s +:+ dquote.

End Str.

(** ** Regular expressions

    The validation pattern has neither groups that are read back nor
    look-around, so whether it matches is a question about the language of
    the expression; it is decided with Brzozowski derivatives. *)

Module RegExp.

Inductive regex : Type :=
| Void : regex
| Eps : regex
| Class (p : ascii -> bool) : regex
| Seq (r1 r2 : regex) : regex
| Alt (r1 r2 : regex) : regex
| Star (r : regex) : regex.

(** [r+] and [r{1,}]. *)
Definition Plus (r : regex) : regex := Seq r (Star r).
Definition Chr (c : ascii) : regex := Class (Ascii.eqb c).

Fixpoint nullable (r : regex) : bool :=
  match r with
  | Void => false
  | Eps => true
  | Class _ => false
  | Seq r1 r2 => nullable r1 && nullable r2
  | Alt r1 r2 => nullable r1 || nullable r2
  | Star _ => true
  end.

Fixpoint deriv (c : ascii) (r : regex) : regex :=
  match r with
  | Void => Void
  | Eps => Void
  | Class p => if p c then Eps else Void
  | Seq r1 r2 =>
      if nullable r1 then Alt (Seq (deriv c r1) r2) (deriv c r2)
      else Seq (deriv c r1) r2
  | Alt r1 r2 => Alt (deriv c r1) (deriv c r2)
  | Star r1 => Seq (deriv c r1) (Star r1)
  end.

(** The whole of [s] is a word of [r]. *)
Fixpoint matches (r : regex) (s : string) : bool :=
  match s with
  | EmptyString => nullable r
  | String c s' => matches (deriv c r) s'
  end.

(** [/r$/.test(s)]: no flag, so [$] is the end of the input and the match
    may start at any index. *)
Definition test_to_end (r : regex) (s : string) : bool :=
  existsb (matches r) (Str.suffixes s).

(** The language of an expression, for reasoning. *)
Inductive lang : regex -> string -> Prop :=
| lang_eps : lang Eps EmptyString
| lang_class p c : p c = true -> lang (Class p) (String c EmptyString)
| lang_seq r1 r2 s1 s2 :
    lang r1 s1 -> lang r2 s2 -> lang (Seq r1 r2) (s1 +:+ s2)
| lang_alt_l r1 r2 s : lang r1 s -> lang (Alt r1 r2) s
| lang_alt_r r1 r2 s : lang r2 s -> lang (Alt r1 r2) s
| lang_star_nil r : lang (Star r) EmptyString
| lang_star_cons r s1 s2 :
    lang r s1 -> lang (Star r) s2 -> lang (Star r) (s1 +:+ s2).

End RegExp.

(** ** Data *)

(** [Headers]: name/value pairs; names compare without regard to case. *)
Definition Headers : Type := list (string * string).

Definition Headers_delete (name : string) (h : Headers) : Headers :=
  List.filter
    (fun nv => negb (String.eqb (Str.toLowerCase (fst nv)) (Str.toLowerCase name)))
    h.

(** An icon descriptor [{ sizes?: string; href: string }]. *)
Record Icon : Type := mkIcon { sizes : option string; href : string }.

Inductive Body : Type :=
| Text (s : string)
| Bytes (b : list Byte.byte).

(** A response, as the handler describes it to the constructor: the status
    and the headers of the init object, and the body. *)
Record Response : Type := mkResponse {
  status : Z;
  headers : list (string * string);
  body : Body
}.

Definition header (name : string) (r : Response) : option string :=
  snd <$> List.find (fun nv => String.eqb (fst nv) name) (headers r).

(** *** Header values

    A [Headers] object holds valid header values only.  A value that is
    appended to one (by [new Response(body, { headers })] for each header of
    its init object) is first normalized, its leading and trailing HTTP
    whitespace removed, and is refused with a [TypeError] when what is left
    contains a NUL, a line feed or a carriage return. *)

Module HeaderValue.

Definition whitespace (c : ascii) : bool :=
  let n := Str.code c in
  (n =? 9)%N || (n =? 10)%N || (n =? 13)%N || (n =? 32)%N.

Definition forbidden (c : ascii) : bool :=
  let n := Str.code c in
  (n =? 0)%N || (n =? 10)%N || (n =? 13)%N.

Fixpoint trim_start (s : string) : string :=
  match s with
  | EmptyString => EmptyString
  | String c s' => if whitespace c then trim_start s' else s
  end.

Fixpoint trim_end (s : string) : string :=
  match s with
  | EmptyString => EmptyString
  | String c s' =>
      match trim_end s' with
      | EmptyString => if whitespace c then EmptyString else String c EmptyString
      | t => String c t
      end
  end.

Definition normalize (s : string) : string := trim_end (trim_start s).

Definition valid (s : string) : bool :=
  Str.forallb (fun c => negb (forbidden c)) (normalize s).

End HeaderValue.

(** [new Response(body, init)], from the response that [init] describes:
    [None] stands for the [TypeError] thrown when a header value of [init] is
    not valid.  The status codes of the handler (200, 404, 500) and its
    header names are literals that the constructor accepts. *)
Definition new_Response (r : Response) : option Response :=
  if forallb (fun nv => HeaderValue.valid (snd nv)) (headers r)
  then Some r else None.

(** The value kept in the cache: [{ buffer, contentType }]. *)
Record CacheEntry : Type := mkEntry {
  buffer : list Byte.byte;
  contentType : string
}.

(** What the handler reads of the [Response] that [fetch] resolves to.  Its
    [Content-Type], when it has one, is read from a [Headers] object, and is
    therefore a valid header value. *)
Record FetchResponse : Type := mkFetched {
  ok : bool;
  content_type_header : option string;
  arrayBuffer : list Byte.byte;
  content_type_is_valid :
    match content_type_header with
    | Some value => HeaderValue.valid value
    | None => true
    end = true
}.

(** How a call of the handler ends. *)
Inductive Outcome : Type :=
| Returns (r : Response)
| Uncaught (error : string).

(** ** The cache: [new Keyv()] with its in-memory store *)

Module Keyv.

(** [get(key)] at time [now]: an entry whose expiry has passed is deleted
    and reported as missing. *)
Definition get (now : Z) (key : string) (st : gmap string (CacheEntry * Z))
  : option CacheEntry * gmap string (CacheEntry * Z) :=
  match st !! key with
  | None => (None, st)
  | Some (v, expires) =>
      if expires <? now then (None, delete key st) else (Some v, st)
  end.

(** [set(key, value, ttl)] at time [now]. *)
Definition set (now : Z) (key : string) (v : CacheEntry) (ttl : Z)
    (st : gmap string (CacheEntry * Z)) : gmap string (CacheEntry * Z) :=
  <[key := (v, now + ttl)]> st.

End Keyv.

(** ** Programs over the handler's calls *)

Inductive Ext : Type -> Type :=
| DateNow : Ext Z
| NewURL (input : string) : Ext (option string)
| CacheGet (key : string) : Ext (option CacheEntry)
| CacheSet (key : string) (v : CacheEntry) (ttl : Z) : Ext unit
| GetFavicons (url : string) (h : Headers) : Ext (option (list Icon))
| ProxyFavicon (domain : string) : Ext Response
| BufferFromBase64 (data : string) : Ext (list Byte.byte)
| Fetch (url : string) (h : Headers) : Ext (option FetchResponse)
| ConsoleDebug : Ext unit
| ConsoleError : Ext unit.

Inductive prog (A : Type) : Type :=
| Ret (a : A) : prog A
| Vis (X : Type) (e : Ext X) (k : X -> prog A) : prog A.

Arguments Ret {A} a.
Arguments Vis {A X} e k.

Fixpoint bind {A B : Type} (p : prog A) (f : A -> prog B) : prog B :=
  match p with
  | Ret a => f a
  | Vis e k => Vis e (fun x => bind (k x) f)
  end.

Definition call {X : Type} (e : Ext X) : prog X := Vis e Ret.

Notation "x <- p ;; q" := (bind p (fun x => q))
  (at level 100, p at next level, right associativity).
Notation "'do' p ;; q" := (bind p (fun _ => q))
  (at level 100, p at next level, right associativity).

(** One call, as recorded in a trace. *)
Inductive Event : Type :=
| Call (X : Type) (e : Ext X) : Event.

Arguments Call {X} e.

(** The surroundings of one request.  [Date_now n] is the [n]-th reading of
    the clock during the request (counted from 0).  [None] stands for an
    exception or a rejected promise: [new URL] throwing, [getFavicons] or
    [fetch] rejecting.  The proxy is taken to answer, the body of a fetched
    response to be readable, and the in-memory cache not to fail. *)
Record World : Type := mkWorld {
  Date_now : nat -> Z;
  URL_hostname : string -> option string;
  getFavicons : string -> Headers -> option (list Icon);
  proxyFavicon : string -> Response;
  Buffer_from_base64 : string -> list Byte.byte;
  fetch : string -> Headers -> option FetchResponse
}.

(** What a run leaves behind: the value, the cache, the number of clock
    readings made so far in the request, and the calls made, in order. *)
Record Run (A : Type) : Type := mkRun {
  result : A;
  cache_after : gmap string (CacheEntry * Z);
  readings : nat;
  trace : list Event
}.

Arguments mkRun {A} result cache_after readings trace.
Arguments result {A} r.
Arguments cache_after {A} r.
Arguments readings {A} r.
Arguments trace {A} r.

(** The answer of the surroundings to one call: the value, the cache after
    it, and the number of clock readings after it.  [Keyv] reads the clock
    when it stores an entry and when it finds one. *)
Definition answer (w : World) (X : Type) (e : Ext X)
    (st : gmap string (CacheEntry * Z)) (n : nat)
  : X * gmap string (CacheEntry * Z) * nat :=
  match e in Ext T return T * gmap string (CacheEntry * Z) * nat with
  | DateNow => (Date_now w n, st, S n)
  | NewURL input => (URL_hostname w input, st, n)
  | CacheGet key =>
      match st !! key with
      | None => (None, st, n)
      | Some _ =>
          let r := Keyv.get (Date_now w n) key st in (fst r, snd r, S n)
      end
  | CacheSet key v ttl => (tt, Keyv.set (Date_now w n) key v ttl st, S n)
  | GetFavicons url h => (getFavicons w url h, st, n)
  | ProxyFavicon domain => (proxyFavicon w domain, st, n)
  | BufferFromBase64 data => (Buffer_from_base64 w data, st, n)
  | Fetch url h => (fetch w url h, st, n)
  | ConsoleDebug => (tt, st, n)
  | ConsoleError => (tt, st, n)
  end.

Fixpoint run_from {A : Type} (w : World) (p : prog A)
    (st : gmap string (CacheEntry * Z)) (n : nat) : Run A :=
  match p with
  | Ret a => mkRun a st n []
  | Vis e k =>
      let '(x, st', n') := answer w _ e st n in
      let r := run_from w (k x) st' n' in
      mkRun (result r) (cache_after r) (readings r) (Call e :: trace r)
  end.

Definition run {A : Type} (w : World) (p : prog A)
    (st : gmap string (CacheEntry * Z)) : Run A :=
  run_from w p st 0.

(** ** The route handler *)

(** *** Domain validation: [/([a-z0-9-]+\.)+[a-z0-9]{1,}$/.test(asciiDomain)] *)

Definition label_char (c : ascii) : bool :=
  Str.is_lower c || Str.is_digit c || Ascii.eqb c "-".

Definition tld_char (c : ascii) : bool :=
  Str.is_lower c || Str.is_digit c.

Definition domain_pattern : RegExp.regex :=
  RegExp.Seq
    (RegExp.Plus (RegExp.Seq (RegExp.Plus (RegExp.Class label_char)) (RegExp.Chr ".")))
    (RegExp.Plus (RegExp.Class tld_char)).

Definition valid_domain (asciiDomain : string) : bool :=
  RegExp.test_to_end domain_pattern asciiDomain.

(** *** The placeholder: [svg404] *)

Definition svg_open : string :=
  Str.newline
  +:+ "        <svg width=" +:+ Str.quoted "100" +:+ " height=" +:+ Str.quoted "100"
  +:+ " xmlns=" +:+ Str.quoted "http://www.w3.org/2000/svg" +:+ ">" +:+ Str.newline
  +:+ "          <rect width=" +:+ Str.quoted "100%" +:+ " height=" +:+ Str.quoted "100%"
  +:+ " fill=" +:+ Str.quoted "#cccccc" +:+ "/>" +:+ Str.newline
  +:+ "          <text x=" +:+ Str.quoted "50%" +:+ " y=" +:+ Str.quoted "50%"
  +:+ " font-size=" +:+ Str.quoted "48" +:+ " text-anchor=" +:+ Str.quoted "middle"
  +:+ " dominant-baseline=" +:+ Str.quoted "middle" +:+ " fill=" +:+ Str.quoted "#000000"
  +:+ ">".

Definition svg_close : string :=
  "</text>" +:+ Str.newline
  +:+ "        </svg>" +:+ Str.newline
  +:+ "      ".

(** The template literal of lines 44-49 and 182-187. *)
Definition svgContent (firstLetter : string) : string :=
  svg_open +:+ firstLetter +:+ svg_close.

(** Lines 42-57 and 180-195.  The letter is that of the source when the
    first character of [domain] is ASCII (see [Str.toUpperCase]); status and
    headers do not depend on it. *)
Definition svg404 (domain : string) : Response :=
  let firstLetter := Str.toUpperCase (Str.charAt 0 domain) in
  {| status := 404;
     headers := [("Cache-Control", "public, max-age=86400");
                 ("Content-Type", "image/svg+xml")];
     body := Text (svgContent firstLetter) |}.

(** *** Inline icons *)

Module DataURI.

(** The dot of a regular expression: any character but a line terminator. *)
Definition dot (c : ascii) : bool :=
  negb (Ascii.eqb c (ascii_of_N 10) || Ascii.eqb c (ascii_of_N 13)).

(** Characters of a media type: ASCII, without line terminator, semicolon,
    comma or NUL. *)
Definition type_char (c : ascii) : bool :=
  Str.is_ascii c && dot c && negb (Ascii.eqb c ";") && negb (Ascii.eqb c ",")
  && negb (Ascii.eqb c (ascii_of_N 0)).

(** Characters of the parameters and of the payload of a data URI: ASCII,
    without line terminator or comma. *)
Definition data_char (c : ascii) : bool :=
  Str.is_ascii c && dot c && negb (Ascii.eqb c ",").

(** [.*?;] read from the front of [s]: the shortest run of dot characters
    that a semicolon follows, and what comes after that semicolon. *)
Fixpoint lazy_to_semicolon (s : string) : option (string * string) :=
  match s with
  | EmptyString => None
  | String c s' =>
      if Ascii.eqb c ";" then Some (EmptyString, s')
      else if dot c then
        match lazy_to_semicolon s' with
        | Some (x, rest) => Some (String c x, rest)
        | None => None
        end
      else None
  end.

(** [.*] read from the front of [s]: what is left after the longest run of
    dot characters. *)
Fixpoint after_dots (s : string) : string :=
  match s with
  | EmptyString => EmptyString
  | String c s' => if dot c then after_dots s' else s
  end.

(** [/data:(image.*?);.*/] matched at the front of [s]: the text of group 1
    and what follows the match. *)
Definition match_here (s : string) : option (string * string) :=
  match Str.strip_prefix "data:image" s with
  | None => None
  | Some t =>
      match lazy_to_semicolon t with
      | Some (x, rest) => Some ("image" +:+ x, after_dots rest)
      | None => None
      end
  end.

(** [href.replace(/data:(image.*?);.*/, '$1')]: the leftmost match is
    replaced by its group 1; without a match the string is unchanged. *)
Fixpoint media_type (href : string) : string :=
  match match_here href with
  | Some (g, rest) => g +:+ rest
  | None =>
      match href with
      | EmptyString => EmptyString
      | String c s' => String c (media_type s')
      end
  end.

(** [href.split(',')[1]], when it is truthy (present and not empty). *)
Definition base64Data (href : string) : option string :=
  match Str.split "," href !! 1%nat with
  | Some EmptyString => None
  | Some payload => Some payload
  | None => None
  end.

End DataURI.

(** *** Steps shared by the two variants *)

Definition ttl : Z := 24 * 60 * 60 * 1000.

(** Lines 67-69 and 205-207: the headers forwarded to the collaborators. *)
Definition forwarded (request_headers : Headers) : Headers :=
  Headers_delete "Content-Length" (Headers_delete "host" request_headers).

(** Lines 71-89 and 209-227: discovery over HTTP, then over HTTPS when no
    icon has been found; a rejection is logged and leaves [icons] as it is. *)
Definition discover (asciiDomain : string) (h : Headers) : prog (list Icon) :=
  data <- call (GetFavicons ("http://" +:+ asciiDomain) h) ;;
  icons <- match data with
           | Some found => do call ConsoleDebug ;; Ret found
           | None => do call ConsoleError ;; Ret []
           end ;;
  if (length icons =? 0)%nat then
    data <- call (GetFavicons ("https://" +:+ asciiDomain) h) ;;
    match data with
    | Some found => Ret found
    | None => do call ConsoleError ;; Ret icons
    end
  else Ret icons.

(** [headers.get('Content-Type') || 'image/png']: an empty value is falsy. *)
Definition content_type_or_png (r : FetchResponse) : string :=
  match content_type_header r with
  | Some (String c s) => String c s
  | Some EmptyString => "image/png"
  | None => "image/png"
  end.

Definition byteLength (b : list Byte.byte) : string :=
  Str.of_Z (Z.of_nat (length b)).

Definition failed : Response :=
  {| status := 500; headers := []; body := Text "Failed to fetch the icon" |}.

(** [return new Response(...)] inside the [try]: when the constructor throws,
    the [catch] of lines 163-166 and 281-284 logs the error and answers 500. *)
Definition respond (r : Response) : prog Outcome :=
  match new_Response r with
  | Some response => Ret (Returns response)
  | None => do call ConsoleError ;; Ret (Returns failed)
  end.

(** *** Variant A: [runtime = 'nodejs'], with the cache *)

Definition hit_response (c : CacheEntry) (executionTime : Z) : Response :=
  {| status := 200;
     headers := [("Cache-Control", "public, max-age=86400");
                 ("Content-Type", contentType c);
                 ("Content-Length", byteLength (buffer c));
                 ("X-Cache", "HIT");
                 ("X-Execution-Time", Str.of_Z executionTime +:+ "ms")];
     body := Bytes (buffer c) |}.

(** The response of lines 119-128 ([unit] is [" ms"]) and of lines 153-162
    ([unit] is ["ms"]). *)
Definition miss_response (iconBuffer : list Byte.byte) (contentType : string)
    (executionTime : Z) (unit : string) : Response :=
  {| status := 200;
     headers := [("Cache-Control", "public, max-age=86400");
                 ("Content-Type", contentType);
                 ("Content-Length", byteLength iconBuffer);
                 ("X-Cache", "MISS");
                 ("X-Execution-Time", Str.of_Z executionTime +:+ unit)];
     body := Bytes iconBuffer |}.

(** Lines 132-162: the remote fetch, inside the [try]. *)
Definition fetch_icon_A (startTime : Z) (domain asciiDomain : string)
    (h : Headers) (selectedIcon : option Icon) : prog Outcome :=
  match selectedIcon with
  | None => Ret (Returns (svg404 domain))
  | Some icon =>
      iconResponse <- call (Fetch (href icon) h) ;;
      match iconResponse with
      | None => do call ConsoleError ;; Ret (Returns failed)
      | Some fetched =>
          if negb (ok fetched) then Ret (Returns (svg404 domain))
          else
            let iconBuffer := arrayBuffer fetched in
            let contentType := content_type_or_png fetched in
            do call (CacheSet asciiDomain (mkEntry iconBuffer contentType) ttl) ;;
            endTime <- call DateNow ;;
            respond (miss_response iconBuffer contentType (endTime - startTime) "ms")
      end
  end.

(** Lines 98-166: the [try] block. *)
Definition retrieve_A (startTime : Z) (domain asciiDomain : string)
    (h : Headers) (selectedIcon : option Icon) : prog Outcome :=
  match selectedIcon with
  | Some icon =>
      if Str.includes "data:image" (href icon) then
        match DataURI.base64Data (href icon) with
        | Some base64Data =>
            iconBuffer <- call (BufferFromBase64 base64Data) ;;
            let contentType := DataURI.media_type (href icon) in
            do call (CacheSet asciiDomain (mkEntry iconBuffer contentType) ttl) ;;
            endTime <- call DateNow ;;
            respond (miss_response iconBuffer contentType (endTime - startTime) " ms")
        | None => fetch_icon_A startTime domain asciiDomain h selectedIcon
        end
      else fetch_icon_A startTime domain asciiDomain h selectedIcon
  | None => fetch_icon_A startTime domain asciiDomain h selectedIcon
  end.

Definition GET_A (request_headers : Headers) (domain : string) : prog Outcome :=
  startTime <- call DateNow ;;
  parsed <- call (NewURL ("http://" +:+ domain)) ;;
  let hostname := match parsed with Some host => host | None => domain end in
  let asciiDomain := hostname in
  cached <- call (CacheGet asciiDomain) ;;
  match cached with
  | Some c =>
      now <- call DateNow ;;
      match new_Response (hit_response c (now - startTime)) with
      | Some response => Ret (Returns response)
      | None => Ret (Uncaught "TypeError: invalid header value")
      end
  | None =>
      if negb (valid_domain asciiDomain) then Ret (Returns (svg404 domain))
      else
        let h := forwarded request_headers in
        icons <- discover asciiDomain h ;;
        if (length icons =? 0)%nat then
          proxied <- call (ProxyFavicon asciiDomain) ;;
          Ret (Returns proxied)
        else retrieve_A startTime domain asciiDomain h (icons !! 0%nat)
  end.

(** *** Variant B: [runtime = 'edge'], no cache *)

Definition edge_response (iconBuffer : list Byte.byte) (contentType : string)
    (executionTime : Z) (unit : string) : Response :=
  {| status := 200;
     headers := [("Cache-Control", "public, max-age=86400");
                 ("Content-Type", contentType);
                 ("Content-Length", byteLength iconBuffer);
                 ("X-Execution-Time", Str.of_Z executionTime +:+ unit)];
     body := Bytes iconBuffer |}.

(** Lines 260-280. *)
Definition fetch_icon_B (startTime : Z) (domain : string)
    (h : Headers) (selectedIcon : option Icon) : prog Outcome :=
  match selectedIcon with
  | None => Ret (Returns (svg404 domain))
  | Some icon =>
      iconResponse <- call (Fetch (href icon) h) ;;
      match iconResponse with
      | None => do call ConsoleError ;; Ret (Returns failed)
      | Some fetched =>
          endTime <- call DateNow ;;
          if negb (ok fetched) then Ret (Returns (svg404 domain))
          else
            let iconBuffer := arrayBuffer fetched in
            respond (edge_response iconBuffer (content_type_or_png fetched)
                       (endTime - startTime) "ms")
      end
  end.

(** Lines 236-284. *)
Definition retrieve_B (startTime : Z) (domain : string)
    (h : Headers) (selectedIcon : option Icon) : prog Outcome :=
  match selectedIcon with
  | Some icon =>
      if Str.includes "data:image" (href icon) then
        match DataURI.base64Data (href icon) with
        | Some base64Data =>
            iconBuffer <- call (BufferFromBase64 base64Data) ;;
            endTime <- call DateNow ;;
            respond (edge_response iconBuffer (DataURI.media_type (href icon))
                       (endTime - startTime) " ms")
        | None => fetch_icon_B startTime domain h selectedIcon
        end
      else fetch_icon_B startTime domain h selectedIcon
  | None => fetch_icon_B startTime domain h selectedIcon
  end.

Definition GET_B (request_headers : Headers) (domain : string) : prog Outcome :=
  startTime <- call DateNow ;;
  parsed <- call (NewURL ("http://" +:+ domain)) ;;
  match parsed with
  | None => Ret (Uncaught "TypeError: Invalid URL")
  | Some asciiDomain =>
      if negb (valid_domain asciiDomain) then Ret (Returns (svg404 domain))
      else
        let h := forwarded request_headers in
        icons <- discover asciiDomain h ;;
        if (length icons =? 0)%nat then
          proxied <- call (ProxyFavicon asciiDomain) ;;
          Ret (Returns proxied)
        else retrieve_B startTime domain h (icons !! 0%nat)
  end.

(** ** A concrete world

    The examples below run the handlers in worlds built from these parts.
    [Sample.hostname] gives the answers of the platform's URL parser on the
    inputs [http://<host>] used here: an empty host and a host with a space
    in it (a forbidden host code point) are rejected; any other host is
    returned in lower case.  [Sample.base64] decodes the standard alphabet
    up to the first [=], skipping characters outside it. *)

Module Sample.

Definition sextet (c : ascii) : option N :=
  let n := Str.code c in
  if Str.is_upper c then Some (n - 65)%N
  else if Str.is_lower c then Some (n - 71)%N
  else if Str.is_digit c then Some (n + 4)%N
  else if Ascii.eqb c "+" then Some 62%N
  else if Ascii.eqb c "/" then Some 63%N
  else None.

Fixpoint sextets (s : string) : list N :=
  match s with
  | EmptyString => []
  | String c s' =>
      if Ascii.eqb c "=" then []
      else match sextet c with
           | Some v => v :: sextets s'
           | None => sextets s'
           end
  end.

Definition octet (n : N) : Byte.byte :=
  match Byte.of_N (n mod 256) with
  | Some b => b
  | None => Byte.x00
  end.

Fixpoint octets (l : list N) : list Byte.byte :=
  match l with
  | a :: b :: c :: d :: rest =>
      octet (a * 4 + b / 16) :: octet (b * 16 + c / 4) :: octet (c * 64 + d)
      :: octets rest
  | [a; b; c] => [octet (a * 4 + b / 16); octet (b * 16 + c / 4)]
  | [a; b] => [octet (a * 4 + b / 16)]
  | _ => []
  end%N.

Definition base64 (s : string) : list Byte.byte := octets (sextets s).

Definition hostname (input : string) : option string :=
  match Str.strip_prefix "http://" input with
  | None => None
  | Some host =>
      if String.eqb host EmptyString then None
      else if Str.includes " " host then None
      else Some (Str.toLowerCase host)
  end.

Definition png_signature : list Byte.byte :=
  [Byte.x89; Byte.x50; Byte.x4e; Byte.x47; Byte.x0d; Byte.x0a; Byte.x1a; Byte.x0a].

Definition proxied : Response :=
  {| status := 200;
     headers := [("Content-Type", "image/x-icon")];
     body := Bytes [Byte.x00; Byte.x00; Byte.x01; Byte.x00] |}.

(** A world whose clock starts at [start] and advances by 5 ms a reading,
    in which discovery over [http://] finds [icons], discovery over
    [https://] is rejected, and [fetch] resolves to [fetched] or, without
    one, is rejected. *)
Definition world (start : Z) (icons : list Icon) (fetched : option FetchResponse)
  : World :=
  {| Date_now := fun n => start + 5 * Z.of_nat n;
     URL_hostname := hostname;
     getFavicons := fun url _ =>
       if Str.startsWith "http://" url then Some icons else None;
     proxyFavicon := fun _ => proxied;
     Buffer_from_base64 := base64;
     fetch := fun _ _ => fetched |}.

Definition offline (icons : list Icon) : World := world 1000 icons None.

Definition online (icons : list Icon) (fetched : FetchResponse) : World :=
  world 1000 icons (Some fetched).

(** The network down, one minute later. *)
Definition later : World := world 61000 [] None.

(** Two upstream answers to the fetch of an icon. *)
Definition not_found : FetchResponse :=
  {| ok := false;
     content_type_header := Some "text/html";
     arrayBuffer := [Byte.x34; Byte.x30; Byte.x34];
     content_type_is_valid := eq_refl |}.

Definition untyped_icon : FetchResponse :=
  {| ok := true;
     content_type_header := None;
     arrayBuffer := [Byte.x00; Byte.x00; Byte.x01; Byte.x00; Byte.x01];
     content_type_is_valid := eq_refl |}.

Definition request_headers : Headers :=
  [("Host", "nav.example"); ("accept", "image/*"); ("content-length", "0")].

(** An inline icon without payload. *)
Definition hollow_icon : Icon :=
  {| sizes := None; href := "data:image/png;base64," |}.

Definition png_icon : Icon :=
  {| sizes := None; href := "data:image/png;base64,iVBORw0KGgo=" |}.

(** An inline icon whose payload is wrapped: a line feed after four
    characters. *)
Definition wrapped_icon : Icon :=
  {| sizes := None;
     href := "data:image/png;base64,iVBO" +:+ Str.newline +:+ "Rw0KGgo=" |}.

Definition ico_icon : Icon :=
  {| sizes := Some "16x16"; href := "http://example.com/favicon.ico" |}.

Definition big_icon : Icon :=
  {| sizes := Some "512x512"; href := "http://example.com/icon-512.png" |}.

End Sample.

(** ** Notions used in the statements *)

(** The cache key of Variant A (lines 16-22): the hostname that the URL
    parser extracts, the raw domain when parsing fails. *)
Definition normalized (w : World) (domain : string) : string :=
  match URL_hostname w ("http://" +:+ domain) with
  | Some host => host
  | None => domain
  end.

(** The cache lookup of line 25; the clock has been read once before it. *)
Definition lookup (w : World) (st : gmap string (CacheEntry * Z)) (key : string)
  : option CacheEntry * gmap string (CacheEntry * Z) * nat :=
  answer w _ (CacheGet key) st 1.

Definition cached (w : World) (st : gmap string (CacheEntry * Z)) (key : string)
  : option CacheEntry :=
  (lookup w st key).1.1.

(** What the first discovery attempt yields, a rejection counting as no icon. *)
Definition found_over_http (w : World) (asciiDomain : string) (h : Headers)
  : list Icon :=
  match getFavicons w ("http://" +:+ asciiDomain) h with
  | Some found => found
  | None => []
  end.

(** What the second discovery attempt yields, when it is made. *)
Definition found_over_https (w : World) (asciiDomain : string) (h : Headers)
  : list Icon :=
  match getFavicons w ("https://" +:+ asciiDomain) h with
  | Some found => found
  | None => []
  end.

(** The icon list after the two discovery steps. *)
Definition discovered (w : World) (asciiDomain : string) (h : Headers)
  : list Icon :=
  match found_over_http w asciiDomain h with
  | [] => found_over_https w asciiDomain h
  | icon :: rest => icon :: rest
  end.

(** The payload that the inline branch decodes, if that branch is taken. *)
Definition inline_payload (href : string) : option string :=
  if Str.includes "data:image" href then DataURI.base64Data href else None.

Definition is_discovery (ev : Event) : bool :=
  match ev with
  | Call e => match e with GetFavicons _ _ => true | _ => false end
  end.

Definition is_proxy (ev : Event) : bool :=
  match ev with
  | Call e => match e with ProxyFavicon _ => true | _ => false end
  end.

Definition is_cache_write (ev : Event) : bool :=
  match ev with
  | Call e => match e with CacheSet _ _ _ => true | _ => false end
  end.

(** The key of a cache write. *)
Definition written_key (ev : Event) : option string :=
  match ev with
  | Call e => match e with CacheSet key _ _ => Some key | _ => None end
  end.

(** Calls that retrieve icon content: the remote fetch and the decoder. *)
Definition is_retrieval (ev : Event) : bool :=
  match ev with
  | Call e =>
      match e with
      | Fetch _ _ => true
      | BufferFromBase64 _ => true
      | _ => false
      end
  end.

(** The retrieval calls that concern the descriptor [icon], with the
    forwarded headers [h]. *)
Definition retrieves (icon : Icon) (h : Headers) (ev : Event) : Prop :=
  ev = Call (Fetch (href icon) h)
  \/ exists payload,
       inline_payload (href icon) = Some payload /\ ev = Call (BufferFromBase64 payload).

(** The headers that a call hands to a collaborator. *)
Definition call_headers (ev : Event) : option Headers :=
  match ev with
  | Call e =>
      match e with
      | GetFavicons _ h => Some h
      | Fetch _ h => Some h
      | _ => None
      end
  end.

Definition is_fetch (ev : Event) : bool :=
  match ev with
  | Call e => match e with Fetch _ _ => true | _ => false end
  end.

(** Calls that read or write the cache. *)
Definition is_cache_call (ev : Event) : bool :=
  match ev with
  | Call e =>
      match e with
      | CacheGet _ => true
      | CacheSet _ _ _ => true
      | _ => false
      end
  end.

(** What a client sees of an outcome apart from the [X-Cache] and
    [X-Execution-Time] headers: status, body, content type, content length
    and cache control; [None] for an uncaught error. *)
Definition essentials (o : Outcome)
  : option (Z * Body * option string * option string * option string) :=
  match o with
  | Returns r =>
      Some (status r, body r, header "Content-Type" r, header "Content-Length" r,
            header "Cache-Control" r)
  | Uncaught _ => None
  end.

(** The world [w] with another discovery collaborator. *)
Definition with_discovery (w : World)
    (g : string -> Headers -> option (list Icon)) : World :=
  {| Date_now := Date_now w;
     URL_hostname := URL_hostname w;
     getFavicons := g;
     proxyFavicon := proxyFavicon w;
     Buffer_from_base64 := Buffer_from_base64 w;
     fetch := fetch w |}.

(** The states of the cache of Variant A: empty when the module is loaded,
    then changed by requests only, each in a world of its own. *)
Inductive reachable : gmap string (CacheEntry * Z) -> Prop :=
| reachable_init : reachable ∅
| reachable_request w request_headers domain st :
    reachable st ->
    reachable (cache_after (run w (GET_A request_headers domain) st)).

Definition keys_valid (st : gmap string (CacheEntry * Z)) : Prop :=
  forall key v, st !! key = Some v -> valid_domain key = true.

(** The calls made by the discovery steps. *)
Definition discovery_calls (w : World) (asciiDomain : string) (h : Headers)
  : list Event :=
  Call (GetFavicons ("http://" +:+ asciiDomain) h)
  :: match getFavicons w ("http://" +:+ asciiDomain) h with
     | Some (_ :: _) => [Call ConsoleDebug]
     | Some [] =>
         Call ConsoleDebug
         :: Call (GetFavicons ("https://" +:+ asciiDomain) h)
         :: match getFavicons w ("https://" +:+ asciiDomain) h with
            | Some _ => []
            | None => [Call ConsoleError]
            end
     | None =>
         Call ConsoleError
         :: Call (GetFavicons ("https://" +:+ asciiDomain) h)
         :: match getFavicons w ("https://" +:+ asciiDomain) h with
            | Some _ => []
            | None => [Call ConsoleError]
            end
     end.

(** A host name of the shape that the validation pattern looks for at the
    end of its input: labels, each followed by a dot, then a last run. *)
Definition dotted (labels : list string) (tld : string) : string :=
  List.fold_right (fun label rest => label +:+ "." +:+ rest) tld labels.

Definition nonempty (s : string) : bool :=
  match s with
  | EmptyString => false
  | String _ _ => true
  end.

(** A word of [[a-z0-9-]+]. *)
Definition is_label (s : string) : bool := nonempty s && Str.forallb label_char s.

(** A word of [[a-z0-9]{1,}]. *)
Definition is_tld (s : string) : bool := nonempty s && Str.forallb tld_char s.

(** The two variants, for the statements that hold of both. *)
Inductive Variant : Type := VariantA | VariantB.

Definition GET (v : Variant) : Headers -> string -> prog Outcome :=
  match v with
  | VariantA => GET_A
  | VariantB => GET_B
  end.

(** [key] is the normalized domain of the request: in Variant A the hostname
    that the URL parser extracts or, when it rejects the domain, the raw
    domain; in Variant B the hostname that the parser extracts. *)
Definition normalizes (v : Variant) (w : World) (domain key : string) : Prop :=
  match v with
  | VariantA => normalized w domain = key
  | VariantB => URL_hostname w ("http://" +:+ domain) = Some key
  end.

(** The request gets as far as the validation of [key]: in Variant A, [key]
    is the normalized domain and the cache does not answer; in Variant B,
    the URL parser accepts the domain and [key] is its hostname. *)
Definition validates (v : Variant) (w : World)
    (st : gmap string (CacheEntry * Z)) (domain key : string) : Prop :=
  match v with
  | VariantA => normalized w domain = key /\ cached w st key = None
  | VariantB => URL_hostname w ("http://" +:+ domain) = Some key
  end.

(** ** The paths through the handlers

    Each constructor is one way through the code, with the conditions that
    select it and the run it produces. *)

Section Paths.

Variable w : World.
Variable request_headers : Headers.
Variable domain : string.
Variable st : gmap string (CacheEntry * Z).

Let h := forwarded request_headers.
Let t0 := Date_now w 0.

(** Variant A.  [st1] and [n1] are the cache and the number of clock
    readings after the lookup. *)
Inductive PathA : Run Outcome -> Prop :=
| A_hit key e :
    key = normalized w domain ->
    cached w st key = Some e ->
    HeaderValue.valid (contentType e) = true ->
    PathA (mkRun (Returns (hit_response e (Date_now w 2 - t0))) st 3
             [Call DateNow; Call (NewURL ("http://" +:+ domain));
              Call (CacheGet key); Call DateNow])
| A_hit_throws key e :
    key = normalized w domain ->
    cached w st key = Some e ->
    HeaderValue.valid (contentType e) = false ->
    PathA (mkRun (Uncaught "TypeError: invalid header value") st 3
             [Call DateNow; Call (NewURL ("http://" +:+ domain));
              Call (CacheGet key); Call DateNow])
| A_invalid key st1 n1 :
    key = normalized w domain ->
    lookup w st key = (None, st1, n1) ->
    valid_domain key = false ->
    PathA (mkRun (Returns (svg404 domain)) st1 n1
             [Call DateNow; Call (NewURL ("http://" +:+ domain));
              Call (CacheGet key)])
| A_proxy key st1 n1 :
    key = normalized w domain ->
    lookup w st key = (None, st1, n1) ->
    valid_domain key = true ->
    discovered w key h = [] ->
    PathA (mkRun (Returns (proxyFavicon w key)) st1 n1
             ([Call DateNow; Call (NewURL ("http://" +:+ domain));
               Call (CacheGet key)]
              ++ discovery_calls w key h ++ [Call (ProxyFavicon key)]))
| A_inline key st1 n1 icon rest payload :
    key = normalized w domain ->
    lookup w st key = (None, st1, n1) ->
    valid_domain key = true ->
    discovered w key h = icon :: rest ->
    inline_payload (href icon) = Some payload ->
    HeaderValue.valid (DataURI.media_type (href icon)) = true ->
    let entry :=
      mkEntry (Buffer_from_base64 w payload) (DataURI.media_type (href icon)) in
    PathA (mkRun
             (Returns (miss_response (buffer entry) (contentType entry)
                         (Date_now w (S n1) - t0) " ms"))
             (Keyv.set (Date_now w n1) key entry ttl st1) (S (S n1))
             ([Call DateNow; Call (NewURL ("http://" +:+ domain));
               Call (CacheGet key)]
              ++ discovery_calls w key h
              ++ [Call (BufferFromBase64 payload); Call (CacheSet key entry ttl);
                  Call DateNow]))
| A_inline_failed key st1 n1 icon rest payload :
    key = normalized w domain ->
    lookup w st key = (None, st1, n1) ->
    valid_domain key = true ->
    discovered w key h = icon :: rest ->
    inline_payload (href icon) = Some payload ->
    HeaderValue.valid (DataURI.media_type (href icon)) = false ->
    let entry :=
      mkEntry (Buffer_from_base64 w payload) (DataURI.media_type (href icon)) in
    PathA (mkRun (Returns failed)
             (Keyv.set (Date_now w n1) key entry ttl st1) (S (S n1))
             ([Call DateNow; Call (NewURL ("http://" +:+ domain));
               Call (CacheGet key)]
              ++ discovery_calls w key h
              ++ [Call (BufferFromBase64 payload); Call (CacheSet key entry ttl);
                  Call DateNow; Call ConsoleError]))
| A_rejected key st1 n1 icon rest :
    key = normalized w domain ->
    lookup w st key = (None, st1, n1) ->
    valid_domain key = true ->
    discovered w key h = icon :: rest ->
    inline_payload (href icon) = None ->
    fetch w (href icon) h = None ->
    PathA (mkRun (Returns failed) st1 n1
             ([Call DateNow; Call (NewURL ("http://" +:+ domain));
               Call (CacheGet key)]
              ++ discovery_calls w key h
              ++ [Call (Fetch (href icon) h); Call ConsoleError]))
| A_not_ok key st1 n1 icon rest fetched :
    key = normalized w domain ->
    lookup w st key = (None, st1, n1) ->
    valid_domain key = true ->
    discovered w key h = icon :: rest ->
    inline_payload (href icon) = None ->
    fetch w (href icon) h = Some fetched ->
    ok fetched = false ->
    PathA (mkRun (Returns (svg404 domain)) st1 n1
             ([Call DateNow; Call (NewURL ("http://" +:+ domain));
               Call (CacheGet key)]
              ++ discovery_calls w key h ++ [Call (Fetch (href icon) h)]))
| A_fetched key st1 n1 icon rest fetched :
    key = normalized w domain ->
    lookup w st key = (None, st1, n1) ->
    valid_domain key = true ->
    discovered w key h = icon :: rest ->
    inline_payload (href icon) = None ->
    fetch w (href icon) h = Some fetched ->
    ok fetched = true ->
    let entry := mkEntry (arrayBuffer fetched) (content_type_or_png fetched) in
    PathA (mkRun
             (Returns (miss_response (buffer entry) (contentType entry)
                         (Date_now w (S n1) - t0) "ms"))
             (Keyv.set (Date_now w n1) key entry ttl st1) (S (S n1))
             ([Call DateNow; Call (NewURL ("http://" +:+ domain));
               Call (CacheGet key)]
              ++ discovery_calls w key h
              ++ [Call (Fetch (href icon) h); Call (CacheSet key entry ttl);
                  Call DateNow])).

Inductive PathB : Run Outcome -> Prop :=
| B_throws :
    URL_hostname w ("http://" +:+ domain) = None ->
    PathB (mkRun (Uncaught "TypeError: Invalid URL") st 1
             [Call DateNow; Call (NewURL ("http://" +:+ domain))])
| B_invalid key :
    URL_hostname w ("http://" +:+ domain) = Some key ->
    valid_domain key = false ->
    PathB (mkRun (Returns (svg404 domain)) st 1
             [Call DateNow; Call (NewURL ("http://" +:+ domain))])
| B_proxy key :
    URL_hostname w ("http://" +:+ domain) = Some key ->
    valid_domain key = true ->
    discovered w key h = [] ->
    PathB (mkRun (Returns (proxyFavicon w key)) st 1
             ([Call DateNow; Call (NewURL ("http://" +:+ domain))]
              ++ discovery_calls w key h ++ [Call (ProxyFavicon key)]))
| B_inline key icon rest payload :
    URL_hostname w ("http://" +:+ domain) = Some key ->
    valid_domain key = true ->
    discovered w key h = icon :: rest ->
    inline_payload (href icon) = Some payload ->
    HeaderValue.valid (DataURI.media_type (href icon)) = true ->
    PathB (mkRun
             (Returns (edge_response (Buffer_from_base64 w payload)
                         (DataURI.media_type (href icon))
                         (Date_now w 1 - t0) " ms"))
             st 2
             ([Call DateNow; Call (NewURL ("http://" +:+ domain))]
              ++ discovery_calls w key h
              ++ [Call (BufferFromBase64 payload); Call DateNow]))
| B_inline_failed key icon rest payload :
    URL_hostname w ("http://" +:+ domain) = Some key ->
    valid_domain key = true ->
    discovered w key h = icon :: rest ->
    inline_payload (href icon) = Some payload ->
    HeaderValue.valid (DataURI.media_type (href icon)) = false ->
    PathB (mkRun (Returns failed) st 2
             ([Call DateNow; Call (NewURL ("http://" +:+ domain))]
              ++ discovery_calls w key h
              ++ [Call (BufferFromBase64 payload); Call DateNow; Call ConsoleError]))
| B_rejected key icon rest :
    URL_hostname w ("http://" +:+ domain) = Some key ->
    valid_domain key = true ->
    discovered w key h = icon :: rest ->
    inline_payload (href icon) = None ->
    fetch w (href icon) h = None ->
    PathB (mkRun (Returns failed) st 1
             ([Call DateNow; Call (NewURL ("http://" +:+ domain))]
              ++ discovery_calls w key h
              ++ [Call (Fetch (href icon) h); Call ConsoleError]))
| B_not_ok key icon rest fetched :
    URL_hostname w ("http://" +:+ domain) = Some key ->
    valid_domain key = true ->
    discovered w key h = icon :: rest ->
    inline_payload (href icon) = None ->
    fetch w (href icon) h = Some fetched ->
    ok fetched = false ->
    PathB (mkRun (Returns (svg404 domain)) st 2
             ([Call DateNow; Call (NewURL ("http://" +:+ domain))]
              ++ discovery_calls w key h
              ++ [Call (Fetch (href icon) h); Call DateNow]))
| B_fetched key icon rest fetched :
    URL_hostname w ("http://" +:+ domain) = Some key ->
    valid_domain key = true ->
    discovered w key h = icon :: rest ->
    inline_payload (href icon) = None ->
    fetch w (href icon) h = Some fetched ->
    ok fetched = true ->
    PathB (mkRun
             (Returns (edge_response (arrayBuffer fetched) (content_type_or_png fetched)
                         (Date_now w 1 - t0) "ms"))
             st 2
             ([Call DateNow; Call (NewURL ("http://" +:+ domain))]
              ++ discovery_calls w key h
              ++ [Call (Fetch (href icon) h); Call DateNow])).

End Paths.

(** ** The model on concrete inputs *)

Example valid_domain_examples :
  valid_domain "example.com" = true
  /\ valid_domain "sub.example.co.uk" = true
  /\ valid_domain "not_a_domain" = false
  /\ valid_domain "-.-" = false
  /\ valid_domain "example.com." = false
  /\ valid_domain "EXAMPLE.COM" = false
  /\ valid_domain "localhost" = false.
Proof. by vm_compute. Qed.

Example header_value_examples :
  let lf := String (ascii_of_N 10) EmptyString in
  let nul := String (ascii_of_N 0) EmptyString in
  HeaderValue.valid "image/png" = true
  /\ HeaderValue.valid EmptyString = true
  /\ HeaderValue.valid (" image/png" +:+ lf) = true
  /\ HeaderValue.normalize (" image/png" +:+ lf) = "image/png"
  /\ HeaderValue.valid ("image/png" +:+ lf +:+ "Rw0KGgo=") = false
  /\ HeaderValue.valid ("image/p" +:+ nul +:+ "ng") = false
  /\ HeaderValue.valid (nul +:+ "image/png") = false.
Proof. by vm_compute. Qed.

Example split_examples :
  Str.split "," "a,b,c" = ["a"; "b"; "c"]
  /\ Str.split "," "" = [""]
  /\ Str.split "," "data:image/png;base64," = ["data:image/png;base64"; ""].
Proof. by vm_compute. Qed.

Example media_type_examples :
  DataURI.media_type "data:image/png;base64,iVBORw0KGgo=" = "image/png"
  /\ DataURI.media_type "data:image/svg+xml;charset=utf-8;base64,PHN2Zy8+"
     = "image/svg+xml"
  /\ DataURI.media_type "data:image/svg+xml,<svg/>" = "data:image/svg+xml,<svg/>"
  /\ DataURI.media_type "see data:image/gif;base64,R0lGOD" = "see image/gif".
Proof. by vm_compute. Qed.

Example base64Data_examples :
  DataURI.base64Data "data:image/png;base64,iVBORw0KGgo=" = Some "iVBORw0KGgo="
  /\ DataURI.base64Data "data:image/png;base64," = None
  /\ DataURI.base64Data "data:image/png;base64" = None
  /\ DataURI.base64Data "data:image/png;base64,AAAA,BBBB" = Some "AAAA".
Proof. by vm_compute. Qed.

Example sample_base64_png :
  Sample.base64 "iVBORw0KGgo=" = Sample.png_signature.
Proof. reflexivity. Qed.

Example forwarded_headers_example :
  forwarded Sample.request_headers = [("accept", "image/*")].
Proof. reflexivity. Qed.

Example svg404_example :
  body (svg404 "example.com") = Text (svg_open +:+ "E" +:+ svg_close)
  /\ body (svg404 "") = Text (svg_open +:+ "" +:+ svg_close)
  /\ body (svg404 "9.example") = Text (svg_open +:+ "9" +:+ svg_close).
Proof. by vm_compute. Qed.

(** A request of Variant A for a domain with an inline icon, from the empty
    cache: the calls it makes and the response. *)
Example GET_A_inline_example :
  let r := run (Sample.offline [Sample.png_icon])
             (GET_A Sample.request_headers "Example.com") ∅ in
  trace r
  = [Call DateNow; Call (NewURL "http://Example.com"); Call (CacheGet "example.com");
     Call (GetFavicons "http://example.com" [("accept", "image/*")]);
     Call ConsoleDebug; Call (BufferFromBase64 "iVBORw0KGgo=");
     Call (CacheSet "example.com" (mkEntry Sample.png_signature "image/png") 86400000);
     Call DateNow]
  /\ result r
     = Returns
         {| status := 200;
            headers := [("Cache-Control", "public, max-age=86400");
                        ("Content-Type", "image/png");
                        ("Content-Length", "8");
                        ("X-Cache", "MISS");
                        ("X-Execution-Time", "10 ms")];
            body := Bytes Sample.png_signature |}
  /\ cache_after r !! "example.com"
     = Some (mkEntry Sample.png_signature "image/png", 1005 + 86400000).
Proof. by vm_compute. Qed.

(** ** Running programs *)

Lemma run_from_bind {A B : Type} (w : World) (p : prog A) (f : A -> prog B) st n :
  run_from w (bind p f) st n =
  let r1 := run_from w p st n in
  let r2 := run_from w (f (result r1)) (cache_after r1) (readings r1) in
  mkRun (result r2) (cache_after r2) (readings r2) (trace r1 ++ trace r2).
Proof.
  revert st n. induction p as [a | X e k IH]; intros st n; simpl.
  - by destruct (run_from w (f a) st n).
  - destruct (answer w X e st n) as [[x st'] n']. rewrite IH. reflexivity.
Qed.

Lemma run_discover (w : World) asciiDomain h st n :
  run_from w (discover asciiDomain h) st n =
  mkRun (discovered w asciiDomain h) st n (discovery_calls w asciiDomain h).
Proof.
  unfold discover, discovered, found_over_http, found_over_https, discovery_calls. simpl.
  destruct (getFavicons w ("http://" +:+ asciiDomain) h) as [[| icon rest] |]; simpl;
    try reflexivity;
    destruct (getFavicons w ("https://" +:+ asciiDomain) h); reflexivity.
Qed.

Lemma run_vis {A X : Type} (w : World) (e : Ext X) (k : X -> prog A) st n :
  run_from w (Vis e k) st n =
  mkRun (result (run_from w (k (answer w X e st n).1.1) (answer w X e st n).1.2 (answer w X e st n).2))
        (cache_after (run_from w (k (answer w X e st n).1.1) (answer w X e st n).1.2 (answer w X e st n).2))
        (readings (run_from w (k (answer w X e st n).1.1) (answer w X e st n).1.2 (answer w X e st n).2))
        (Call e :: trace (run_from w (k (answer w X e st n).1.1) (answer w X e st n).1.2 (answer w X e st n).2)).
Proof. simpl. by destruct (answer w X e st n) as [[x st'] n']. Qed.

(** One call of a program, answered. *)
Ltac step := rewrite run_vis; cbn [answer fst snd].

Lemma cached_Some (w : World) (st : gmap string (CacheEntry * Z)) (key : string) e :
  cached w st key = Some e ->
  exists expires,
    st !! key = Some (e, expires) /\ (expires <? Date_now w 1) = false
    /\ lookup w st key = (Some e, st, 2%nat).
Proof.
  unfold cached, lookup, answer, Keyv.get.
  destruct (st !! key) as [[v expires] |] eqn:E; simpl; [| discriminate].
  destruct (expires <? Date_now w 1) eqn:T; simpl; [discriminate |].
  intros [= ->]. by exists expires.
Qed.

(** ** Header values *)

Lemma append_cons (c : ascii) (s1 s2 : string) :
  String c s1 +:+ s2 = String c (s1 +:+ s2).
Proof. reflexivity. Qed.

Lemma forallb_append (p : ascii -> bool) (s1 s2 : string) :
  Str.forallb p (s1 +:+ s2) = Str.forallb p s1 && Str.forallb p s2.
Proof.
  induction s1 as [| c s1 IH]; [reflexivity |].
  rewrite append_cons. simpl. by rewrite IH, andb_assoc.
Qed.

Lemma forallb_impl (p q : ascii -> bool) (s : string) :
  (forall c, p c = true -> q c = true) ->
  Str.forallb p s = true -> Str.forallb q s = true.
Proof.
  intros PQ. induction s as [| c s IH]; simpl; [done |].
  intros H. apply andb_true_iff in H as [Hc Hs]. by rewrite (PQ c Hc), IH.
Qed.

Lemma trim_start_forallb (p : ascii -> bool) (s : string) :
  Str.forallb p s = true -> Str.forallb p (HeaderValue.trim_start s) = true.
Proof.
  induction s as [| c s IH]; simpl; [done |].
  intros H. destruct (HeaderValue.whitespace c); [| exact H].
  apply andb_true_iff in H as [_ Hs]. by apply IH.
Qed.

Lemma trim_end_forallb (p : ascii -> bool) (s : string) :
  Str.forallb p s = true -> Str.forallb p (HeaderValue.trim_end s) = true.
Proof.
  induction s as [| c s IH]; simpl; [done |].
  intros H. apply andb_true_iff in H as [Hc Hs]. specialize (IH Hs).
  destruct (HeaderValue.trim_end s) as [| c' t].
  - destruct (HeaderValue.whitespace c); simpl; [done | by rewrite Hc].
  - simpl in *. by rewrite Hc, IH.
Qed.

(** A value without NUL, line feed or carriage return is valid. *)
Lemma valid_of_plain (s : string) :
  Str.forallb (fun c => negb (HeaderValue.forbidden c)) s = true ->
  HeaderValue.valid s = true.
Proof.
  intros H. unfold HeaderValue.valid, HeaderValue.normalize.
  by apply trim_end_forallb, trim_start_forallb.
Qed.

Lemma digits_plain (d : Decimal.uint) :
  Str.forallb (fun c => negb (HeaderValue.forbidden c)) (NilEmpty.string_of_uint d) = true.
Proof. induction d; simpl; done. Qed.

Lemma of_Z_plain (z : Z) :
  Str.forallb (fun c => negb (HeaderValue.forbidden c)) (Str.of_Z z) = true.
Proof.
  unfold Str.of_Z, NilZero.string_of_int.
  destruct (Z.to_int z) as [d | d]; destruct d; try reflexivity;
    simpl; apply (digits_plain (_ d)) || apply digits_plain.
Qed.

Lemma valid_time (z : Z) (unit : string) :
  Str.forallb (fun c => negb (HeaderValue.forbidden c)) unit = true ->
  HeaderValue.valid (Str.of_Z z +:+ unit) = true.
Proof.
  intros U. apply valid_of_plain. by rewrite forallb_append, of_Z_plain, U.
Qed.

Lemma valid_byteLength (bytes : list Byte.byte) :
  HeaderValue.valid (byteLength bytes) = true.
Proof. apply valid_of_plain, of_Z_plain. Qed.

(** The upstream content type, or its default, is a valid value. *)
Lemma valid_content_type_or_png (fetched : FetchResponse) :
  HeaderValue.valid (content_type_or_png fetched) = true.
Proof.
  unfold content_type_or_png. pose proof (content_type_is_valid fetched) as V.
  destruct (content_type_header fetched) as [[| c s] |]; [reflexivity | exact V | reflexivity].
Qed.

(** The constructor fails on the response of a cache hit, of a cache miss
    and of Variant B only through the content type. *)
Lemma new_Response_hit (e : CacheEntry) (t : Z) :
  new_Response (hit_response e t)
  = if HeaderValue.valid (contentType e) then Some (hit_response e t) else None.
Proof.
  unfold new_Response, hit_response. cbn [headers forallb snd].
  rewrite valid_byteLength, (valid_time t "ms" eq_refl).
  change (HeaderValue.valid "public, max-age=86400") with true.
  change (HeaderValue.valid "HIT") with true.
  cbn [andb]. by rewrite andb_true_r.
Qed.

Lemma new_Response_miss (bytes : list Byte.byte) (type : string) (t : Z) (unit : string) :
  Str.forallb (fun c => negb (HeaderValue.forbidden c)) unit = true ->
  new_Response (miss_response bytes type t unit)
  = if HeaderValue.valid type then Some (miss_response bytes type t unit) else None.
Proof.
  intros U. unfold new_Response, miss_response. cbn [headers forallb snd].
  rewrite valid_byteLength, (valid_time t unit U).
  change (HeaderValue.valid "public, max-age=86400") with true.
  change (HeaderValue.valid "MISS") with true.
  cbn [andb]. by rewrite andb_true_r.
Qed.

Lemma new_Response_edge (bytes : list Byte.byte) (type : string) (t : Z) (unit : string) :
  Str.forallb (fun c => negb (HeaderValue.forbidden c)) unit = true ->
  new_Response (edge_response bytes type t unit)
  = if HeaderValue.valid type then Some (edge_response bytes type t unit) else None.
Proof.
  intros U. unfold new_Response, edge_response. cbn [headers forallb snd].
  rewrite valid_byteLength, (valid_time t unit U).
  change (HeaderValue.valid "public, max-age=86400") with true.
  cbn [andb]. by rewrite andb_true_r.
Qed.

Lemma run_respond (w : World) (r : Response) st n :
  run_from w (respond r) st n =
  match new_Response r with
  | Some response => mkRun (Returns response) st n []
  | None => mkRun (Returns failed) st n [Call ConsoleError]
  end.
Proof. unfold respond. by destruct (new_Response r). Qed.

(** ** The paths of Variant A *)

Section PathsA.

Variable w : World.
Variable request_headers : Headers.
Variable domain : string.
Variable st : gmap string (CacheEntry * Z).

Let key := normalized w domain.
Let h := forwarded request_headers.
Let opening : list Event :=
  [Call DateNow; Call (NewURL ("http://" +:+ domain)); Call (CacheGet key)].

(** The first three calls, common to every path. *)
Lemma GET_A_opening :
  run w (GET_A request_headers domain) st =
  let r :=
    run_from w
      match cached w st key with
      | Some c =>
          now <- call DateNow ;;
          match new_Response (hit_response c (now - Date_now w 0)) with
          | Some response => Ret (Returns response)
          | None => Ret (Uncaught "TypeError: invalid header value")
          end
      | None =>
          if negb (valid_domain key) then Ret (Returns (svg404 domain))
          else
            icons <- discover key h ;;
            if (length icons =? 0)%nat then
              proxied <- call (ProxyFavicon key) ;;
              Ret (Returns proxied)
            else retrieve_A (Date_now w 0) domain key h (icons !! 0%nat)
      end
      (lookup w st key).1.2 (lookup w st key).2 in
  mkRun (result r) (cache_after r) (readings r) (opening ++ trace r).
Proof.
  unfold run, GET_A. cbn [bind call]. do 2 step. rewrite run_vis.
  fold (normalized w domain). fold key.
  change (answer w _ (CacheGet key) st 1) with (lookup w st key).
  unfold cached. cbn zeta.
  destruct ((lookup w st key).1.1); reflexivity.
Qed.

Lemma GET_A_hit e :
  cached w st key = Some e ->
  HeaderValue.valid (contentType e) = true ->
  run w (GET_A request_headers domain) st =
  mkRun (Returns (hit_response e (Date_now w 2 - Date_now w 0))) st 3
        (opening ++ [Call DateNow]).
Proof.
  intros C T. destruct (cached_Some _ _ _ e C) as (expires & _ & _ & L).
  rewrite GET_A_opening, C, L. cbn zeta. cbn [bind call]. step.
  by rewrite new_Response_hit, T.
Qed.

(** The response of a cache hit is built outside the [try] (lines 29-40). *)
Lemma GET_A_hit_throws e :
  cached w st key = Some e ->
  HeaderValue.valid (contentType e) = false ->
  run w (GET_A request_headers domain) st =
  mkRun (Uncaught "TypeError: invalid header value") st 3
        (opening ++ [Call DateNow]).
Proof.
  intros C T. destruct (cached_Some _ _ _ e C) as (expires & _ & _ & L).
  rewrite GET_A_opening, C, L. cbn zeta. cbn [bind call]. step.
  by rewrite new_Response_hit, T.
Qed.

Lemma GET_A_invalid :
  cached w st key = None ->
  valid_domain key = false ->
  run w (GET_A request_headers domain) st =
  mkRun (Returns (svg404 domain)) (lookup w st key).1.2 (lookup w st key).2 opening.
Proof.
  intros C V. rewrite GET_A_opening, C, V. reflexivity.
Qed.

Lemma GET_A_proxy :
  cached w st key = None ->
  valid_domain key = true ->
  discovered w key h = [] ->
  run w (GET_A request_headers domain) st =
  mkRun (Returns (proxyFavicon w key)) (lookup w st key).1.2 (lookup w st key).2
        (opening ++ discovery_calls w key h ++ [Call (ProxyFavicon key)]).
Proof.
  intros C V D. rewrite GET_A_opening, C, V. cbn [negb].
  rewrite run_from_bind, run_discover. cbn [result cache_after readings trace].
  rewrite D. reflexivity.
Qed.

Lemma GET_A_retrieve icon rest :
  cached w st key = None ->
  valid_domain key = true ->
  discovered w key h = icon :: rest ->
  run w (GET_A request_headers domain) st =
  mkRun
    (result (run_from w (retrieve_A (Date_now w 0) domain key h (Some icon))
               (lookup w st key).1.2 (lookup w st key).2))
    (cache_after (run_from w (retrieve_A (Date_now w 0) domain key h (Some icon))
               (lookup w st key).1.2 (lookup w st key).2))
    (readings (run_from w (retrieve_A (Date_now w 0) domain key h (Some icon))
               (lookup w st key).1.2 (lookup w st key).2))
    (opening ++ discovery_calls w key h
     ++ trace (run_from w (retrieve_A (Date_now w 0) domain key h (Some icon))
               (lookup w st key).1.2 (lookup w st key).2)).
Proof.
  intros C V D. rewrite GET_A_opening, C, V. cbn [negb].
  rewrite run_from_bind, run_discover. cbn [result cache_after readings trace].
  rewrite D. reflexivity.
Qed.

End PathsA.

Section RetrieveA.

Variable w : World.
Variable startTime : Z.
Variables domain key : string.
Variable h : Headers.
Variable icon : Icon.
Variable st : gmap string (CacheEntry * Z).
Variable n : nat.

(** The inline branch: the cache is written before the response is built,
    so the entry is there also when the constructor refuses the type. *)
Lemma retrieve_A_inline payload :
  inline_payload (href icon) = Some payload ->
  let entry :=
    mkEntry (Buffer_from_base64 w payload) (DataURI.media_type (href icon)) in
  let calls :=
    [Call (BufferFromBase64 payload); Call (CacheSet key entry ttl); Call DateNow] in
  run_from w (retrieve_A startTime domain key h (Some icon)) st n =
  if HeaderValue.valid (DataURI.media_type (href icon)) then
    mkRun
      (Returns (miss_response (buffer entry) (contentType entry)
                  (Date_now w (S n) - startTime) " ms"))
      (Keyv.set (Date_now w n) key entry ttl st) (S (S n)) calls
  else
    mkRun (Returns failed)
      (Keyv.set (Date_now w n) key entry ttl st) (S (S n))
      (calls ++ [Call ConsoleError]).
Proof.
  intros P. cbv zeta. unfold inline_payload, retrieve_A in *.
  destruct (Str.includes "data:image" (href icon)); [| discriminate].
  rewrite P. cbn [bind call]. do 3 step. rewrite run_respond.
  rewrite (new_Response_miss _ _ _ " ms" eq_refl).
  by destruct (HeaderValue.valid (DataURI.media_type (href icon))).
Qed.

Lemma retrieve_A_remote :
  inline_payload (href icon) = None ->
  retrieve_A startTime domain key h (Some icon) =
  fetch_icon_A startTime domain key h (Some icon).
Proof.
  unfold inline_payload, retrieve_A. intros P.
  destruct (Str.includes "data:image" (href icon)); [| reflexivity].
  by rewrite P.
Qed.

Lemma fetch_icon_A_run :
  run_from w (fetch_icon_A startTime domain key h (Some icon)) st n =
  match fetch w (href icon) h with
  | None =>
      mkRun (Returns failed) st n [Call (Fetch (href icon) h); Call ConsoleError]
  | Some fetched =>
      if ok fetched then
        mkRun
          (Returns (miss_response (arrayBuffer fetched) (content_type_or_png fetched)
                      (Date_now w (S n) - startTime) "ms"))
          (Keyv.set (Date_now w n) key
             (mkEntry (arrayBuffer fetched) (content_type_or_png fetched)) ttl st)
          (S (S n))
          [Call (Fetch (href icon) h);
           Call (CacheSet key
                   (mkEntry (arrayBuffer fetched) (content_type_or_png fetched)) ttl);
           Call DateNow]
      else mkRun (Returns (svg404 domain)) st n [Call (Fetch (href icon) h)]
  end.
Proof.
  unfold fetch_icon_A. cbn [bind call]. step.
  destruct (fetch w (href icon) h) as [fetched |]; [| reflexivity].
  destruct (ok fetched); [| reflexivity].
  cbn [negb]. do 2 step. rewrite run_respond.
  by rewrite (new_Response_miss _ _ _ "ms" eq_refl), valid_content_type_or_png.
Qed.

End RetrieveA.

(** ** The paths of Variant B *)

Section PathsB.

Variable w : World.
Variable request_headers : Headers.
Variable domain : string.
Variable st : gmap string (CacheEntry * Z).

Let h := forwarded request_headers.
Let opening : list Event := [Call DateNow; Call (NewURL ("http://" +:+ domain))].

Lemma GET_B_throws :
  URL_hostname w ("http://" +:+ domain) = None ->
  run w (GET_B request_headers domain) st =
  mkRun (Uncaught "TypeError: Invalid URL") st 1 opening.
Proof.
  intros U. unfold run, GET_B. cbn [bind call]. do 2 step. rewrite U. reflexivity.
Qed.

Lemma GET_B_invalid key :
  URL_hostname w ("http://" +:+ domain) = Some key ->
  valid_domain key = false ->
  run w (GET_B request_headers domain) st =
  mkRun (Returns (svg404 domain)) st 1 opening.
Proof.
  intros U V. unfold run, GET_B. cbn [bind call]. do 2 step. rewrite U, V. reflexivity.
Qed.

Lemma GET_B_proxy key :
  URL_hostname w ("http://" +:+ domain) = Some key ->
  valid_domain key = true ->
  discovered w key h = [] ->
  run w (GET_B request_headers domain) st =
  mkRun (Returns (proxyFavicon w key)) st 1
        (opening ++ discovery_calls w key h ++ [Call (ProxyFavicon key)]).
Proof.
  intros U V D. unfold run, GET_B. cbn [bind call]. do 2 step. rewrite U, V.
  cbn [negb]. rewrite run_from_bind, run_discover.
  cbn [result cache_after readings trace]. fold h. rewrite D. reflexivity.
Qed.

Lemma GET_B_retrieve key icon rest :
  URL_hostname w ("http://" +:+ domain) = Some key ->
  valid_domain key = true ->
  discovered w key h = icon :: rest ->
  run w (GET_B request_headers domain) st =
  mkRun
    (result (run_from w (retrieve_B (Date_now w 0) domain h (Some icon)) st 1))
    (cache_after (run_from w (retrieve_B (Date_now w 0) domain h (Some icon)) st 1))
    (readings (run_from w (retrieve_B (Date_now w 0) domain h (Some icon)) st 1))
    (opening ++ discovery_calls w key h
     ++ trace (run_from w (retrieve_B (Date_now w 0) domain h (Some icon)) st 1)).
Proof.
  intros U V D. unfold run, GET_B. cbn [bind call]. do 2 step. rewrite U, V.
  cbn [negb]. rewrite run_from_bind, run_discover.
  cbn [result cache_after readings trace]. fold h. rewrite D. reflexivity.
Qed.

End PathsB.

Section RetrieveB.

Variable w : World.
Variable startTime : Z.
Variable domain : string.
Variable h : Headers.
Variable icon : Icon.
Variable st : gmap string (CacheEntry * Z).
Variable n : nat.

Lemma retrieve_B_inline payload :
  inline_payload (href icon) = Some payload ->
  run_from w (retrieve_B startTime domain h (Some icon)) st n =
  if HeaderValue.valid (DataURI.media_type (href icon)) then
    mkRun
      (Returns (edge_response (Buffer_from_base64 w payload)
                  (DataURI.media_type (href icon))
                  (Date_now w n - startTime) " ms"))
      st (S n)
      [Call (BufferFromBase64 payload); Call DateNow]
  else
    mkRun (Returns failed) st (S n)
      [Call (BufferFromBase64 payload); Call DateNow; Call ConsoleError].
Proof.
  unfold inline_payload, retrieve_B. intros P.
  destruct (Str.includes "data:image" (href icon)); [| discriminate].
  rewrite P. cbn [bind call]. do 2 step. rewrite run_respond.
  rewrite (new_Response_edge _ _ _ " ms" eq_refl).
  by destruct (HeaderValue.valid (DataURI.media_type (href icon))).
Qed.

Lemma retrieve_B_remote :
  inline_payload (href icon) = None ->
  retrieve_B startTime domain h (Some icon) =
  fetch_icon_B startTime domain h (Some icon).
Proof.
  unfold inline_payload, retrieve_B. intros P.
  destruct (Str.includes "data:image" (href icon)); [| reflexivity].
  by rewrite P.
Qed.

Lemma fetch_icon_B_run :
  run_from w (fetch_icon_B startTime domain h (Some icon)) st n =
  match fetch w (href icon) h with
  | None =>
      mkRun (Returns failed) st n [Call (Fetch (href icon) h); Call ConsoleError]
  | Some fetched =>
      if ok fetched then
        mkRun
          (Returns (edge_response (arrayBuffer fetched) (content_type_or_png fetched)
                      (Date_now w n - startTime) "ms"))
          st (S n)
          [Call (Fetch (href icon) h); Call DateNow]
      else
        mkRun (Returns (svg404 domain)) st (S n)
              [Call (Fetch (href icon) h); Call DateNow]
  end.
Proof.
  unfold fetch_icon_B. cbn [bind call]. step.
  destruct (fetch w (href icon) h) as [fetched |]; [| reflexivity].
  step. destruct (ok fetched); [| reflexivity].
  cbn [negb]. rewrite run_respond.
  by rewrite (new_Response_edge _ _ _ "ms" eq_refl), valid_content_type_or_png.
Qed.

End RetrieveB.

(** ** Every run follows one of the paths *)

Section PathLemmas.

Variable w : World.
Variable request_headers : Headers.
Variable domain : string.
Variable st : gmap string (CacheEntry * Z).

Let h := forwarded request_headers.

Lemma lookup_eta key :
  cached w st key = None ->
  lookup w st key = (None, (lookup w st key).1.2, (lookup w st key).2).
Proof.
  unfold cached. destruct (lookup w st key) as [[c st1] n1]. simpl. by intros ->.
Qed.

Lemma GET_A_path : PathA w request_headers domain st (run w (GET_A request_headers domain) st).
Proof.
  set (key := normalized w domain).
  destruct (cached w st key) as [e |] eqn:C.
  { destruct (HeaderValue.valid (contentType e)) eqn:T.
    - rewrite (GET_A_hit _ _ _ _ e C T). by eapply A_hit.
    - rewrite (GET_A_hit_throws _ _ _ _ e C T). by eapply A_hit_throws. }
  pose proof (lookup_eta key C) as L.
  destruct (valid_domain key) eqn:V.
  2: { rewrite (GET_A_invalid _ _ _ _ C V). by eapply A_invalid. }
  destruct (discovered w key h) as [| icon rest] eqn:D.
  { rewrite (GET_A_proxy _ _ _ _ C V D). by eapply A_proxy. }
  rewrite (GET_A_retrieve _ _ _ _ icon rest C V D).
  destruct (inline_payload (href icon)) as [payload |] eqn:P.
  { rewrite (retrieve_A_inline _ _ _ _ _ _ _ _ payload P).
    destruct (HeaderValue.valid (DataURI.media_type (href icon))) eqn:T;
      cbn [result cache_after readings trace app].
    - by eapply A_inline.
    - by eapply A_inline_failed. }
  rewrite (retrieve_A_remote _ _ _ _ _ P), fetch_icon_A_run.
  destruct (fetch w (href icon) (forwarded request_headers)) as [fetched |] eqn:F.
  2: { cbn [result cache_after readings trace]. by eapply A_rejected. }
  destruct (ok fetched) eqn:O; cbn [result cache_after readings trace].
  - by eapply A_fetched.
  - by eapply A_not_ok.
Qed.

Lemma GET_B_path : PathB w request_headers domain st (run w (GET_B request_headers domain) st).
Proof.
  destruct (URL_hostname w ("http://" +:+ domain)) as [key |] eqn:U.
  2: { rewrite (GET_B_throws _ _ _ _ U). by apply B_throws. }
  destruct (valid_domain key) eqn:V.
  2: { rewrite (GET_B_invalid _ _ _ _ key U V). by eapply B_invalid. }
  destruct (discovered w key h) as [| icon rest] eqn:D.
  { rewrite (GET_B_proxy _ _ _ _ key U V D). by eapply B_proxy. }
  rewrite (GET_B_retrieve _ _ _ _ key icon rest U V D).
  destruct (inline_payload (href icon)) as [payload |] eqn:P.
  { rewrite (retrieve_B_inline _ _ _ _ _ _ _ payload P).
    destruct (HeaderValue.valid (DataURI.media_type (href icon))) eqn:T;
      cbn [result cache_after readings trace].
    - by eapply B_inline.
    - by eapply B_inline_failed. }
  rewrite (retrieve_B_remote _ _ _ _ P), fetch_icon_B_run.
  destruct (fetch w (href icon) (forwarded request_headers)) as [fetched |] eqn:F.
  2: { cbn [result cache_after readings trace]. by eapply B_rejected. }
  destruct (ok fetched) eqn:O; cbn [result cache_after readings trace].
  - by eapply B_fetched.
  - by eapply B_not_ok.
Qed.

End PathLemmas.

(** ** The validation pattern *)

Lemma append_empty_l (s : string) : EmptyString +:+ s = s.
Proof. reflexivity. Qed.

Lemma append_assoc (s1 s2 s3 : string) : (s1 +:+ s2) +:+ s3 = s1 +:+ (s2 +:+ s3).
Proof.
  induction s1 as [| c s1 IH]; [reflexivity |].
  by rewrite !append_cons, IH.
Qed.

Lemma append_eq_empty (s1 s2 : string) :
  s1 +:+ s2 = EmptyString -> s1 = EmptyString /\ s2 = EmptyString.
Proof.
  destruct s1; [rewrite append_empty_l; by intros -> | rewrite append_cons; discriminate].
Qed.

Lemma nullable_lang (r : RegExp.regex) :
  RegExp.lang r EmptyString -> RegExp.nullable r = true.
Proof.
  intros H. remember EmptyString as s eqn:E.
  induction H as [| p c Hp | r1 r2 s1 s2 H1 IH1 H2 IH2 | r1 r2 s H IH | r1 r2 s H IH
                 | r | r s1 s2 H1 IH1 H2 IH2]; simpl; try reflexivity.
  - discriminate.
  - apply append_eq_empty in E as [-> ->].
    by rewrite IH1, IH2.
  - by rewrite IH.
  - rewrite IH by done. apply orb_true_r.
Qed.

Lemma deriv_lang (r : RegExp.regex) (c : ascii) (s : string) :
  RegExp.lang r (String c s) -> RegExp.lang (RegExp.deriv c r) s.
Proof.
  intros H. remember (String c s) as s0 eqn:E. revert c s E.
  induction H as [| p a Hp | r1 r2 s1 s2 H1 IH1 H2 IH2 | r1 r2 s0 H IH | r1 r2 s0 H IH
                 | r | r s1 s2 H1 IH1 H2 IH2]; intros c s E; simpl.
  - discriminate.
  - injection E as -> <-. rewrite Hp. constructor.
  - destruct s1 as [| a s1'].
    + rewrite append_empty_l in E. subst s2. rewrite (nullable_lang _ H1).
      apply RegExp.lang_alt_r. by apply IH2.
    + rewrite append_cons in E. injection E as -> <-.
      assert (RegExp.lang (RegExp.Seq (RegExp.deriv c r1) r2) (s1' +:+ s2)) as S
        by (constructor; [by apply IH1 | done]).
      destruct (RegExp.nullable r1); [by apply RegExp.lang_alt_l | done].
  - apply RegExp.lang_alt_l. by apply IH.
  - apply RegExp.lang_alt_r. by apply IH.
  - discriminate.
  - destruct s1 as [| a s1'].
    + rewrite append_empty_l in E. by apply IH2.
    + rewrite append_cons in E. injection E as -> <-.
      constructor; [by apply IH1 | done].
Qed.

Lemma lang_matches (r : RegExp.regex) (s : string) :
  RegExp.lang r s -> RegExp.matches r s = true.
Proof.
  revert r. induction s as [| c s IH]; intros r H; simpl.
  - by apply nullable_lang.
  - apply IH. by apply deriv_lang.
Qed.

Lemma suffixes_append (pre suf : string) : In suf (Str.suffixes (pre +:+ suf)).
Proof.
  induction pre as [| c pre IH].
  - rewrite append_empty_l. destruct suf; simpl; by left.
  - rewrite append_cons. simpl. by right.
Qed.

Lemma test_to_end_suffix (r : RegExp.regex) (pre suf : string) :
  RegExp.lang r suf -> RegExp.test_to_end r (pre +:+ suf) = true.
Proof.
  intros H. unfold RegExp.test_to_end. apply existsb_exists.
  exists suf. split; [apply suffixes_append | by apply lang_matches].
Qed.

Lemma lang_star_class (p : ascii -> bool) (s : string) :
  Str.forallb p s = true -> RegExp.lang (RegExp.Star (RegExp.Class p)) s.
Proof.
  induction s as [| c s IH]; simpl; intros H.
  - constructor.
  - apply andb_true_iff in H as [Hc Hs].
    change (String c s) with (String c EmptyString +:+ s).
    constructor; [by constructor | by apply IH].
Qed.

Lemma lang_plus_class (p : ascii -> bool) (s : string) :
  nonempty s && Str.forallb p s = true ->
  RegExp.lang (RegExp.Plus (RegExp.Class p)) s.
Proof.
  destruct s as [| c s]; simpl; [discriminate |]. intros H.
  apply andb_true_iff in H as [Hc Hs].
  change (String c s) with (String c EmptyString +:+ s).
  constructor; [by constructor | by apply lang_star_class].
Qed.

Lemma lang_label_dot (label : string) :
  is_label label = true ->
  RegExp.lang (RegExp.Seq (RegExp.Plus (RegExp.Class label_char)) (RegExp.Chr "."))
    (label +:+ ".").
Proof.
  intros H. constructor; [by apply lang_plus_class |].
  by constructor.
Qed.

(** The labels of [dotted], each with its dot, without the last run. *)
Lemma dotted_split (labels : list string) (tld : string) :
  dotted labels tld = dotted labels EmptyString +:+ tld.
Proof.
  induction labels as [| label labels IH]; simpl; [reflexivity |].
  by rewrite IH, !append_assoc.
Qed.

Lemma lang_labels (labels : list string) :
  forallb is_label labels = true ->
  RegExp.lang
    (RegExp.Star (RegExp.Seq (RegExp.Plus (RegExp.Class label_char)) (RegExp.Chr ".")))
    (dotted labels EmptyString).
Proof.
  induction labels as [| label labels IH]; simpl; intros H.
  - constructor.
  - apply andb_true_iff in H as [Hl Hs].
    rewrite <- append_assoc. constructor; [by apply lang_label_dot | by apply IH].
Qed.

Lemma lang_dotted (label : string) (labels : list string) (tld : string) :
  is_label label = true ->
  forallb is_label labels = true ->
  is_tld tld = true ->
  RegExp.lang domain_pattern (dotted (label :: labels) tld).
Proof.
  intros Hl Hs Ht. rewrite dotted_split. unfold domain_pattern.
  constructor; [| by apply lang_plus_class].
  simpl. rewrite <- append_assoc.
  constructor; [by apply lang_label_dot | by apply lang_labels].
Qed.

Lemma valid_domain_suffix (pre label : string) (labels : list string) (tld : string) :
  is_label label = true ->
  forallb is_label labels = true ->
  is_tld tld = true ->
  valid_domain (pre +:+ dotted (label :: labels) tld) = true.
Proof.
  intros Hl Hs Ht. apply test_to_end_suffix. by apply lang_dotted.
Qed.

(** ** The cache of Variant A *)

Lemma lookup_keys (w : World) (st : gmap string (CacheEntry * Z)) (key : string) :
  keys_valid st -> keys_valid (lookup w st key).1.2.
Proof.
  intros K. unfold lookup, answer, Keyv.get.
  destruct (st !! key) as [[v expires] |] eqn:E; simpl; [| exact K].
  destruct (expires <? Date_now w 1); simpl; [| exact K].
  intros k v' Hk. apply lookup_delete_Some in Hk as [_ Hk]. by eapply K.
Qed.

Lemma lookup_absent (w : World) (st : gmap string (CacheEntry * Z)) (key : string) :
  st !! key = None -> lookup w st key = (None, st, 1%nat).
Proof. intros E. unfold lookup, answer. by rewrite E. Qed.

Lemma set_keys (now : Z) (key : string) (v : CacheEntry) (t : Z)
    (st : gmap string (CacheEntry * Z)) :
  valid_domain key = true -> keys_valid st -> keys_valid (Keyv.set now key v t st).
Proof.
  intros V K k v' Hk. unfold Keyv.set in Hk.
  destruct (decide (key = k)) as [<- | Hne]; [done |].
  rewrite lookup_insert_ne in Hk by done. by eapply K.
Qed.

Lemma PathA_keys w request_headers domain st r :
  PathA w request_headers domain st r ->
  keys_valid st -> keys_valid (cache_after r).
Proof.
  intros P K.
  destruct P; cbn [cache_after]; try exact K;
    match goal with
    | L : lookup _ _ ?key = _ |- _ =>
        pose proof (lookup_keys w st key K) as K1; rewrite L in K1;
        cbn [fst snd] in K1
    end;
    try exact K1; by apply set_keys.
Qed.

Lemma reachable_keys (st : gmap string (CacheEntry * Z)) :
  reachable st -> keys_valid st.
Proof.
  induction 1 as [| w request_headers domain st R IH].
  - intros key v Hk. by rewrite lookup_empty in Hk.
  - eapply PathA_keys; [apply GET_A_path | exact IH].
Qed.

Lemma invalid_absent (st : gmap string (CacheEntry * Z)) (key : string) :
  keys_valid st -> valid_domain key = false -> st !! key = None.
Proof.
  intros K V. destruct (st !! key) as [v |] eqn:E; [| reflexivity].
  apply K in E. congruence.
Qed.

Lemma discovery_calls_kind w key h ev :
  In ev (discovery_calls w key h) ->
  ev = Call (GetFavicons ("http://" +:+ key) h)
  \/ ev = Call (GetFavicons ("https://" +:+ key) h)
  \/ ev = Call ConsoleDebug \/ ev = Call ConsoleError.
Proof.
  unfold discovery_calls.
  destruct (getFavicons w ("http://" +:+ key) h) as [[| icon rest] |];
    destruct (getFavicons w ("https://" +:+ key) h); simpl; intuition.
Qed.

(** Splits membership in a trace into its events; an event of the discovery
    steps is identified by [discovery_calls_kind]. *)
Ltac events :=
  repeat match goal with
    | H : In _ (_ ++ _) |- _ => apply in_app_or in H as [H | H]
    | H : In _ (discovery_calls _ _ _) |- _ =>
        apply discovery_calls_kind in H as [H | [H | [H | H]]]
    | H : In _ (_ :: _) |- _ => destruct H as [H | H]
    | H : In _ [] |- _ => destruct H
    end;
  subst.

Lemma PathA_writes w request_headers domain st r ev key :
  PathA w request_headers domain st r ->
  In ev (trace r) ->
  written_key ev = Some key ->
  key = normalized w domain /\ valid_domain key = true.
Proof.
  intros P I W.
  destruct P; cbn [trace] in I; events; simpl in W; try discriminate;
    injection W as <-; by subst.
Qed.

(** Case analysis on the path of a run of Variant A (resp. B). *)
Ltac by_path_A w hs d st :=
  generalize (GET_A_path w hs d st);
  generalize (run w (GET_A hs d) st);
  let r := fresh "r" in let P := fresh "P" in
  intros r P; destruct P; cbn [result cache_after readings trace] in *.

Ltac by_path_B w hs d st :=
  generalize (GET_B_path w hs d st);
  generalize (run w (GET_B hs d) st);
  let r := fresh "r" in let P := fresh "P" in
  intros r P; destruct P; cbn [result cache_after readings trace] in *.


Lemma cached_lookup w st key st1 n1 :
  lookup w st key = (None, st1, n1) -> cached w st key = None.
Proof. unfold cached. by intros ->. Qed.

(** ** The properties *)

(** C9.  Invariant of the cache of Variant A.  In every state that the cache
    can reach, every key is a normalized domain that passes the validation
    pattern; a request writes to the cache only under its own normalized
    domain and only when that domain is valid; hence a request that the cache
    answers is for a domain that was valid when stored, although the lookup
    comes before the validation: such a request makes the four opening calls
    and no other, and its response is the one built from the entry, when the
    stored content type is ASCII text and a valid header value (on a value
    that is not valid the constructor throws, outside any [try]). *)
Theorem cache_keys_are_valid_domains
    (st : gmap string (CacheEntry * Z)) (w : World)
    (request_headers : Headers) (domain : string) :
  reachable st ->
  let r := run w (GET_A request_headers domain) st in
  (forall key v, st !! key = Some v -> valid_domain key = true)
  /\ (forall ev key,
        In ev (trace r) -> written_key ev = Some key ->
        key = normalized w domain /\ valid_domain key = true)
  /\ (forall key v, cache_after r !! key = Some v -> valid_domain key = true)
  /\ (forall e,
        cached w st (normalized w domain) = Some e ->
        valid_domain (normalized w domain) = true
        /\ trace r = [Call DateNow; Call (NewURL ("http://" +:+ domain));
                      Call (CacheGet (normalized w domain)); Call DateNow]
        /\ (HeaderValue.valid (contentType e) = true ->
            Str.ascii_text (contentType e) = true ->
            result r = Returns (hit_response e (Date_now w 2 - Date_now w 0)))
        /\ (HeaderValue.valid (contentType e) = false ->
            result r = Uncaught "TypeError: invalid header value")).
Proof.
  intros R r. pose proof (reachable_keys st R) as K. subst r.
  split; [exact K |]. split; [| split].
  - intros ev key. apply (PathA_writes w request_headers domain st). apply GET_A_path.
  - apply (reachable_keys _ (reachable_request w request_headers domain st R)).
  - intros e C. split.
    + apply cached_Some in C as (expires & Hk & _). by eapply K.
    + destruct (HeaderValue.valid (contentType e)) eqn:T.
      * rewrite (GET_A_hit _ _ _ _ e C T). by repeat split.
      * rewrite (GET_A_hit_throws _ _ _ _ e C T). by repeat split.
Qed.

Lemma cache_keys_are_valid_domains_witness :
  let first := run (Sample.offline [Sample.png_icon])
                 (GET_A Sample.request_headers "Example.com") ∅ in
  let second := run (Sample.offline []) (GET_A Sample.request_headers "example.com")
                  (cache_after first) in
  reachable (cache_after first)
  /\ (forall key v, cache_after first !! key = Some v -> valid_domain key = true)
  /\ valid_domain "example.com" = true
  /\ length (trace second) = 4%nat
  /\ exists t,
       result second
       = Returns (hit_response (mkEntry Sample.png_signature "image/png") t).
Proof.
  intros first second.
  assert (reachable (cache_after first)) as R
    by (apply reachable_request, reachable_init).
  split; [exact R |].
  destruct (cache_keys_are_valid_domains (cache_after first) (Sample.offline [])
              Sample.request_headers "example.com" R) as (K & _ & _ & H).
  split; [exact K |].
  destruct (H (mkEntry Sample.png_signature "image/png")) as (V & T & E & _).
  { vm_compute. reflexivity. }
  split; [exact V |]. subst second. rewrite T, (E eq_refl eq_refl).
  split; [reflexivity |]. eexists. reflexivity.
Defined.

Lemma GET_A_invalid_reachable w request_headers domain st :
  reachable st ->
  valid_domain (normalized w domain) = false ->
  run w (GET_A request_headers domain) st =
  mkRun (Returns (svg404 domain)) st 1
        [Call DateNow; Call (NewURL ("http://" +:+ domain));
         Call (CacheGet (normalized w domain))].
Proof.
  intros R V.
  pose proof (invalid_absent st _ (reachable_keys st R) V) as Absent.
  pose proof (lookup_absent w st _ Absent) as L.
  by rewrite (GET_A_invalid _ _ _ _ (cached_lookup _ _ _ _ _ L) V), L.
Qed.

(** C2.  The claim covers every domain whose normalized hostname fails the
    validation pattern, in both variants, the normalized hostname of a domain
    that the URL parser rejects being the raw domain.  For [not a domain] (a
    space is not allowed in a host) Variant A does what the claim says: the
    raw string fails the pattern and the answer is the 404 placeholder with
    its letter [N], nothing being written to the cache.  Variant B parses
    outside any [try] (line 179) and ends with the uncaught [TypeError],
    before the validation of line 198 is reached. *)
Theorem edge_variant_throws_before_the_placeholder :
  let w := Sample.offline [] in
  let a := run w (GET VariantA Sample.request_headers "not a domain") ∅ in
  let b := run w (GET VariantB Sample.request_headers "not a domain") ∅ in
  URL_hostname w "http://not a domain" = None
  /\ normalized w "not a domain" = "not a domain"
  /\ valid_domain "not a domain" = false
  /\ result a = Returns (svg404 "not a domain")
  /\ status (svg404 "not a domain") = 404
  /\ cache_after a = ∅
  /\ result b = Uncaught "TypeError: Invalid URL"
  /\ trace b = [Call DateNow; Call (NewURL "http://not a domain")].
Proof. vm_compute. repeat split. Qed.




Lemma cached_fresh (w : World) (st : gmap string (CacheEntry * Z)) (key : string)
    (e : CacheEntry) (expires : Z) :
  st !! key = Some (e, expires) ->
  Date_now w 1 <= expires ->
  cached w st key = Some e.
Proof.
  intros E T. unfold cached, lookup, answer, Keyv.get. rewrite E. cbn [fst snd].
  destruct (expires <? Date_now w 1) eqn:C; [| reflexivity].
  apply Z.ltb_lt in C. lia.
Qed.



(** ** Discovery *)

Lemma discovery_calls_filter w key h :
  List.filter is_discovery (discovery_calls w key h) =
  Call (GetFavicons ("http://" +:+ key) h)
  :: match found_over_http w key h with
     | [] => [Call (GetFavicons ("https://" +:+ key) h)]
     | _ :: _ => []
     end.
Proof.
  unfold discovery_calls, found_over_http.
  destruct (getFavicons w ("http://" +:+ key) h) as [[| icon rest] |];
    destruct (getFavicons w ("https://" +:+ key) h); reflexivity.
Qed.

Lemma discovered_nil w key h :
  found_over_http w key h = [] -> found_over_https w key h = [] ->
  discovered w key h = [].
Proof. unfold discovered. by intros -> ->. Qed.

Lemma filter_none {A : Type} (p : A -> bool) (l : list A) :
  (forall x, In x l -> p x = false) -> List.filter p l = [].
Proof.
  induction l as [| x l IH]; intros H; simpl; [reflexivity |].
  rewrite (H x) by (by left). apply IH. intros y I. apply H. by right.
Qed.

Lemma discovery_calls_no_retrieval w key h :
  List.filter is_retrieval (discovery_calls w key h) = [].
Proof.
  apply filter_none. intros ev I.
  destruct (discovery_calls_kind w key h ev I) as [-> | [-> | [-> | ->]]]; reflexivity.
Qed.

Lemma discovery_calls_no_write w key h :
  List.filter is_cache_write (discovery_calls w key h) = [].
Proof.
  apply filter_none. intros ev I.
  destruct (discovery_calls_kind w key h ev I) as [-> | [-> | [-> | ->]]]; reflexivity.
Qed.

Lemma opening_no_retrieval_A domain key w h :
  List.filter is_retrieval
    ([Call DateNow; Call (NewURL ("http://" +:+ domain)); Call (CacheGet key)]
     ++ discovery_calls w key h) = [].
Proof. by rewrite List.filter_app, discovery_calls_no_retrieval. Qed.

Lemma opening_no_retrieval_B domain key w h :
  List.filter is_retrieval
    ([Call DateNow; Call (NewURL ("http://" +:+ domain))]
     ++ discovery_calls w key h) = [].
Proof. by rewrite List.filter_app, discovery_calls_no_retrieval. Qed.

(** The discovery calls of a trace that goes through the discovery steps. *)
Ltac discovery_filter :=
  rewrite ?List.filter_app, discovery_calls_filter; simpl;
  rewrite ?app_nil_r; reflexivity.

Lemma discovery_attempts
    (v : Variant) (w : World) (request_headers : Headers) (domain key : string)
    (st : gmap string (CacheEntry * Z)) :
  validates v w st domain key ->
  valid_domain key = true ->
  List.filter is_discovery (trace (run w (GET v request_headers domain) st)) =
  Call (GetFavicons ("http://" +:+ key) (forwarded request_headers))
  :: match found_over_http w key (forwarded request_headers) with
     | [] => [Call (GetFavicons ("https://" +:+ key) (forwarded request_headers))]
     | _ :: _ => []
     end.
Proof.
  intros R V. destruct v; cbn [GET validates] in *.
  - destruct R as [N C].
    by_path_A w request_headers domain st; subst; try congruence; discovery_filter.
  - by_path_B w request_headers domain st; try congruence;
      match goal with
      | H : URL_hostname _ _ = Some ?k |- _ => rewrite R in H; injection H as <-
      end; try congruence; discovery_filter.
Qed.

(** C4.  For a valid domain (in Variant A, one that the cache does not
    answer), discovery is attempted first over [http://<normalized-domain>];
    the attempt over [https://<normalized-domain>] is made exactly when the
    first one yielded no icon, a rejection counting as none; and when both
    yield none, the response of the proxy collaborator is returned as it
    is, the call of the proxy being the last thing the handler does. *)
Theorem discovery_http_then_https_then_proxy
    (v : Variant) (w : World) (request_headers : Headers) (domain key : string)
    (st : gmap string (CacheEntry * Z)) :
  validates v w st domain key ->
  valid_domain key = true ->
  let h := forwarded request_headers in
  let r := run w (GET v request_headers domain) st in
  List.filter is_discovery (trace r)
  = Call (GetFavicons ("http://" +:+ key) h)
    :: match found_over_http w key h with
       | [] => [Call (GetFavicons ("https://" +:+ key) h)]
       | _ :: _ => []
       end
  /\ (found_over_http w key h = [] ->
      found_over_https w key h = [] ->
      result r = Returns (proxyFavicon w key)
      /\ (exists before, trace r = before ++ [Call (ProxyFavicon key)])
      /\ List.filter is_retrieval (trace r) = []
      /\ List.filter is_cache_write (trace r) = []).
Proof.
  intros R V h r. subst h r.
  split; [by apply discovery_attempts |].
  intros F1 F2. pose proof (discovered_nil _ _ _ F1 F2) as D.
  destruct v; cbn [GET validates] in *.
  - destruct R as [<- C].
    rewrite (GET_A_proxy _ _ _ _ C V D). cbn [result trace].
    split; [reflexivity |]. split; [eexists; by rewrite app_assoc |]. split.
    + by rewrite !List.filter_app, discovery_calls_no_retrieval.
    + by rewrite !List.filter_app, discovery_calls_no_write.
  - rewrite (GET_B_proxy _ _ _ _ key R V D). cbn [result trace].
    split; [reflexivity |]. split; [eexists; by rewrite app_assoc |]. split.
    + by rewrite !List.filter_app, discovery_calls_no_retrieval.
    + by rewrite !List.filter_app, discovery_calls_no_write.
Qed.

Lemma discovery_http_then_https_then_proxy_witness :
  let w := Sample.offline [] in
  let h := forwarded Sample.request_headers in
  let a := run w (GET VariantA Sample.request_headers "example.com") ∅ in
  let b := run w (GET VariantB Sample.request_headers "example.com") ∅ in
  let attempts :=
    [Call (GetFavicons "http://example.com" h);
     Call (GetFavicons "https://example.com" h)] in
  (validates VariantA w ∅ "example.com" "example.com"
   /\ validates VariantB w ∅ "example.com" "example.com"
   /\ valid_domain "example.com" = true
   /\ found_over_http w "example.com" h = []
   /\ found_over_https w "example.com" h = [])
  /\ List.filter is_discovery (trace a) = attempts
  /\ result a = Returns Sample.proxied
  /\ List.filter is_discovery (trace b) = attempts
  /\ result b = Returns Sample.proxied.
Proof.
  intros w h a b attempts.
  assert (validates VariantA w ∅ "example.com" "example.com") as RA
    by (split; reflexivity).
  assert (validates VariantB w ∅ "example.com" "example.com") as RB by reflexivity.
  assert (valid_domain "example.com" = true) as V by reflexivity.
  assert (found_over_http w "example.com" h = []) as F1 by reflexivity.
  assert (found_over_https w "example.com" h = []) as F2 by reflexivity.
  split; [by repeat split |].
  pose proof (discovery_http_then_https_then_proxy VariantA w Sample.request_headers
                "example.com" "example.com" ∅ RA V) as A.
  pose proof (discovery_http_then_https_then_proxy VariantB w Sample.request_headers
                "example.com" "example.com" ∅ RB V) as B.
  cbv zeta in A, B. destruct A as (Ha & PA). destruct B as (Hb & PB).
  destruct (PA F1 F2) as (Hra & _). destruct (PB F1 F2) as (Hrb & _).
  split; [exact Ha |]. split; [exact Hra |]. split; [exact Hb | exact Hrb].
Defined.

(** ** Retrieval *)




(** ** Success responses *)

Lemma proxy_call_in_trace (before after : list Event) (key : string) :
  existsb is_proxy (before ++ after ++ [Call (ProxyFavicon key)]) = true.
Proof. rewrite !existsb_app. simpl. by rewrite !orb_true_r. Qed.

(** C7, as stated, fails: on the data-URI path Variant B does set
    [Content-Length].  Here the first discovered icon is an inline PNG; the
    decoder is the only retrieval call, and the response carries
    [Content-Length: 8] for its 8 bytes. *)
Lemma edge_inline_sets_content_length_counterexample :
  let r := run (Sample.offline [Sample.png_icon])
             (GET_B Sample.request_headers "example.com") ∅ in
  let response := edge_response Sample.png_signature "image/png" 5 " ms" in
  result r = Returns response
  /\ List.filter is_retrieval (trace r) = [Call (BufferFromBase64 "iVBORw0KGgo=")]
  /\ body response = Bytes Sample.png_signature
  /\ length Sample.png_signature = 8%nat
  /\ header "Content-Length" response = Some "8".
Proof. vm_compute. repeat split. Qed.

(** C7, amended.  In both variants, every response with status 200 that the
    component builds itself (every one but the proxy's) carries the bytes
    as body and a [Content-Length] header equal to their number: in
    Variant A on a cache hit, on the data-URI path and on the remote-fetch
    path, in Variant B on the data-URI path and on the remote-fetch path. *)
Theorem content_length_on_every_success
    (v : Variant) (w : World) (request_headers : Headers) (domain : string)
    (st : gmap string (CacheEntry * Z)) (response : Response) :
  let r := run w (GET v request_headers domain) st in
  result r = Returns response ->
  status response = 200 ->
  existsb is_proxy (trace r) = false ->
  exists bytes : list Byte.byte,
    body response = Bytes bytes
    /\ header "Content-Length" response = Some (Str.of_Z (Z.of_nat (length bytes))).
Proof.
  intros r. subst r. destruct v; cbn [GET].
  - by_path_A w request_headers domain st; intros E S NoProxy;
      try (rewrite proxy_call_in_trace in NoProxy; discriminate);
      try discriminate;
      injection E as <-; try discriminate; by eexists.
  - by_path_B w request_headers domain st; intros E S NoProxy;
      try (rewrite proxy_call_in_trace in NoProxy; discriminate);
      try discriminate;
      injection E as <-; try discriminate; by eexists.
Qed.

Lemma content_length_on_every_success_witness :
  let r := run (Sample.offline [Sample.png_icon])
             (GET VariantB Sample.request_headers "example.com") ∅ in
  let response := edge_response Sample.png_signature "image/png" 5 " ms" in
  (result r = Returns response
   /\ status response = 200
   /\ existsb is_proxy (trace r) = false)
  /\ exists bytes : list Byte.byte,
       body response = Bytes bytes
       /\ header "Content-Length" response = Some (Str.of_Z (Z.of_nat (length bytes))).
Proof.
  intros r response.
  assert (result r = Returns response) as E by reflexivity.
  assert (status response = 200) as S by reflexivity.
  assert (existsb is_proxy (trace r) = false) as P by reflexivity.
  split; [by repeat split |].
  exact (content_length_on_every_success VariantB (Sample.offline [Sample.png_icon])
           Sample.request_headers "example.com" ∅ response E S P).
Defined.

(** ** Selection *)

(** The run of the retrieval block depends on the descriptor through its
    [href] only, and not on the discovery collaborator. *)
Lemma retrieve_A_href w g startTime domain key h icon icon' st n :
  href icon' = href icon ->
  run_from (with_discovery w g) (retrieve_A startTime domain key h (Some icon')) st n
  = run_from w (retrieve_A startTime domain key h (Some icon)) st n.
Proof.
  intros E. destruct (inline_payload (href icon)) as [payload |] eqn:P.
  - rewrite (retrieve_A_inline w _ _ _ _ icon _ _ payload P).
    rewrite <- E in P.
    rewrite (retrieve_A_inline (with_discovery w g) _ _ _ _ icon' _ _ payload P).
    by rewrite E.
  - rewrite (retrieve_A_remote _ _ _ _ icon P), fetch_icon_A_run.
    rewrite <- E in P.
    rewrite (retrieve_A_remote _ _ _ _ icon' P), fetch_icon_A_run.
    by rewrite E.
Qed.

Lemma retrieve_B_href w g startTime domain h icon icon' st n :
  href icon' = href icon ->
  run_from (with_discovery w g) (retrieve_B startTime domain h (Some icon')) st n
  = run_from w (retrieve_B startTime domain h (Some icon)) st n.
Proof.
  intros E. destruct (inline_payload (href icon)) as [payload |] eqn:P.
  - rewrite (retrieve_B_inline w _ _ _ icon _ _ payload P).
    rewrite <- E in P.
    rewrite (retrieve_B_inline (with_discovery w g) _ _ _ icon' _ _ payload P).
    by rewrite E.
  - rewrite (retrieve_B_remote _ _ _ icon P), fetch_icon_B_run.
    rewrite <- E in P.
    rewrite (retrieve_B_remote _ _ _ icon' P), fetch_icon_B_run.
    by rewrite E.
Qed.

(** The retrieval calls of the retrieval block: one, about [icon]. *)
Lemma retrieve_A_calls w startTime domain key h icon st n :
  exists ev,
    List.filter is_retrieval
      (trace (run_from w (retrieve_A startTime domain key h (Some icon)) st n)) = [ev]
    /\ retrieves icon h ev.
Proof.
  destruct (inline_payload (href icon)) as [payload |] eqn:P.
  - rewrite (retrieve_A_inline w _ _ _ _ icon _ _ payload P).
    destruct (HeaderValue.valid (DataURI.media_type (href icon))); cbn [trace];
      (eexists; split; [reflexivity |]; right; by exists payload).
  - rewrite (retrieve_A_remote _ _ _ _ icon P), fetch_icon_A_run.
    destruct (fetch w (href icon) h) as [fetched |]; [destruct (ok fetched) |];
      cbn [trace]; (eexists; split; [reflexivity | by left]).
Qed.

Lemma retrieve_B_calls w startTime domain h icon st n :
  exists ev,
    List.filter is_retrieval
      (trace (run_from w (retrieve_B startTime domain h (Some icon)) st n)) = [ev]
    /\ retrieves icon h ev.
Proof.
  destruct (inline_payload (href icon)) as [payload |] eqn:P.
  - rewrite (retrieve_B_inline w _ _ _ icon _ _ payload P).
    destruct (HeaderValue.valid (DataURI.media_type (href icon))); cbn [trace];
      (eexists; split; [reflexivity |]; right; by exists payload).
  - rewrite (retrieve_B_remote _ _ _ icon P), fetch_icon_B_run.
    destruct (fetch w (href icon) h) as [fetched |]; [destruct (ok fetched) |];
      cbn [trace]; (eexists; split; [reflexivity | by left]).
Qed.

(** C8.  Whenever the discovered list is not empty, both variants retrieve
    the first descriptor of the list and no other: the one retrieval call
    of the request (the remote fetch or the decoding of the inline payload)
    is about the [href] of the first descriptor, and neither the rest of
    the list nor the declared sizes have any influence on the response or
    on the cache. *)
Theorem first_icon_is_selected
    (v : Variant) (w : World) (request_headers : Headers) (domain key : string)
    (st : gmap string (CacheEntry * Z)) (icon : Icon) (rest : list Icon) :
  validates v w st domain key ->
  valid_domain key = true ->
  let h := forwarded request_headers in
  discovered w key h = icon :: rest ->
  let r := run w (GET v request_headers domain) st in
  (exists ev,
     List.filter is_retrieval (trace r) = [ev] /\ retrieves icon h ev)
  /\ (forall g icon' rest',
        discovered (with_discovery w g) key h = icon' :: rest' ->
        href icon' = href icon ->
        let r' := run (with_discovery w g) (GET v request_headers domain) st in
        result r' = result r /\ cache_after r' = cache_after r).
Proof.
  intros R V h D r. subst h r. destruct v; cbn [GET validates] in *.
  - destruct R as [<- C].
    rewrite (GET_A_retrieve _ _ _ _ icon rest C V D). cbn [result cache_after trace].
    split.
    + rewrite app_assoc, List.filter_app, opening_no_retrieval_A.
      apply retrieve_A_calls.
    + intros g icon' rest' D' E.
      rewrite (GET_A_retrieve (with_discovery w g) _ _ _ icon' rest' C V D').
      cbn [result cache_after].
      change (lookup (with_discovery w g) st (normalized (with_discovery w g) domain))
        with (lookup w st (normalized w domain)).
      change (normalized (with_discovery w g) domain) with (normalized w domain).
      change (Date_now (with_discovery w g) 0) with (Date_now w 0).
      by rewrite (retrieve_A_href w g _ _ _ _ icon icon' _ _ E).
  - rewrite (GET_B_retrieve _ _ _ _ key icon rest R V D). cbn [result cache_after trace].
    split.
    + rewrite app_assoc, List.filter_app, opening_no_retrieval_B.
      apply retrieve_B_calls.
    + intros g icon' rest' D' E.
      rewrite (GET_B_retrieve (with_discovery w g) _ _ _ key icon' rest' R V D').
      cbn [result cache_after].
      change (Date_now (with_discovery w g) 0) with (Date_now w 0).
      by rewrite (retrieve_B_href w g _ _ _ icon icon' _ _ E).
Qed.

Lemma first_icon_is_selected_witness :
  let icons := [Sample.ico_icon; Sample.big_icon] in
  let w := Sample.online icons Sample.untyped_icon in
  let h := forwarded Sample.request_headers in
  let r := run w (GET VariantA Sample.request_headers "example.com") ∅ in
  (validates VariantA w ∅ "example.com" "example.com"
   /\ valid_domain "example.com" = true
   /\ discovered w "example.com" h = icons)
  /\ exists ev,
       List.filter is_retrieval (trace r) = [ev]
       /\ retrieves Sample.ico_icon h ev.
Proof.
  intros icons w h r.
  assert (validates VariantA w ∅ "example.com" "example.com") as R
    by (split; reflexivity).
  assert (valid_domain "example.com" = true) as V by reflexivity.
  assert (discovered w "example.com" h = icons) as D by reflexivity.
  split; [by repeat split |].
  pose proof (first_icon_is_selected VariantA w Sample.request_headers "example.com"
                "example.com" ∅ Sample.ico_icon [Sample.big_icon] R V D) as T.
  cbv zeta in T. exact (proj1 T).
Defined.

(** ** Inline icons *)

Lemma append_empty_r (s : string) : s +:+ EmptyString = s.
Proof.
  induction s as [| c s IH]; [reflexivity |]. by rewrite append_cons, IH.
Qed.

Lemma split_plain (sep : ascii) (s : string) :
  Str.forallb (fun c => negb (Ascii.eqb c sep)) s = true ->
  Str.split sep s = [s].
Proof.
  induction s as [| c s IH]; simpl; [done |]. intros H.
  apply andb_true_iff in H as [Hc Hs]. apply negb_true_iff in Hc.
  by rewrite Hc, (IH Hs).
Qed.

Lemma split_at (sep : ascii) (s1 s2 : string) :
  Str.forallb (fun c => negb (Ascii.eqb c sep)) s1 = true ->
  Str.split sep (s1 +:+ String sep s2) = s1 :: Str.split sep s2.
Proof.
  induction s1 as [| c s1 IH]; intros H.
  - rewrite append_empty_l. simpl. by rewrite Ascii.eqb_refl.
  - rewrite append_cons. simpl in *.
    apply andb_true_iff in H as [Hc Hs]. apply negb_true_iff in Hc.
    by rewrite Hc, (IH Hs).
Qed.

(** What the character classes of a data URI exclude. *)
Lemma type_char_inv (c : ascii) :
  DataURI.type_char c = true ->
  DataURI.dot c = true /\ Ascii.eqb c ";" = false
  /\ DataURI.data_char c = true /\ HeaderValue.forbidden c = false.
Proof. destruct c as [[] [] [] [] [] [] [] []]; by vm_compute. Qed.

Lemma data_char_inv (c : ascii) :
  DataURI.data_char c = true ->
  DataURI.dot c = true /\ Ascii.eqb c "," = false /\ Str.is_ascii c = true.
Proof. destruct c as [[] [] [] [] [] [] [] []]; by vm_compute. Qed.

Lemma lazy_to_semicolon_type (subtype rest : string) :
  Str.forallb DataURI.type_char subtype = true ->
  DataURI.lazy_to_semicolon (subtype +:+ String ";" rest) = Some (subtype, rest).
Proof.
  induction subtype as [| c s IH]; intros H.
  - reflexivity.
  - rewrite append_cons. simpl in *.
    apply andb_true_iff in H as [Hc Hs].
    destruct (type_char_inv c Hc) as (Hdot & Hsemi & _).
    by rewrite Hsemi, Hdot, (IH Hs).
Qed.

Lemma after_dots_all (s : string) :
  Str.forallb DataURI.dot s = true -> DataURI.after_dots s = EmptyString.
Proof.
  induction s as [| c s IH]; simpl; [done |]. intros H.
  apply andb_true_iff in H as [Hc Hs]. by rewrite Hc, (IH Hs).
Qed.

Lemma media_type_unfold (href : string) :
  DataURI.media_type href =
  match DataURI.match_here href with
  | Some (g, rest) => g +:+ rest
  | None =>
      match href with
      | EmptyString => EmptyString
      | String c s' => String c (DataURI.media_type s')
      end
  end.
Proof. by destruct href. Qed.

Section WellFormed.

Variables subtype params payload : string.

Hypothesis subtype_plain : Str.forallb DataURI.type_char subtype = true.
Hypothesis params_plain : Str.forallb DataURI.data_char params = true.
Hypothesis payload_plain : Str.forallb DataURI.data_char payload = true.
Hypothesis payload_nonempty : nonempty payload = true.

Let href : string :=
  "data:image" +:+ subtype +:+ ";" +:+ params +:+ "," +:+ payload.

Lemma data_char_no_comma (s : string) :
  Str.forallb DataURI.data_char s = true ->
  Str.forallb (fun c => negb (Ascii.eqb c ",")) s = true.
Proof.
  apply forallb_impl. intros c H. destruct (data_char_inv c H) as (_ & Hc & _).
  by rewrite Hc.
Qed.

Lemma data_char_dot (s : string) :
  Str.forallb DataURI.data_char s = true -> Str.forallb DataURI.dot s = true.
Proof.
  apply forallb_impl. intros c H. by destruct (data_char_inv c H) as (Hc & _).
Qed.

Lemma type_char_data_char (s : string) :
  Str.forallb DataURI.type_char s = true -> Str.forallb DataURI.data_char s = true.
Proof.
  apply forallb_impl. intros c H. by destruct (type_char_inv c H) as (_ & _ & Hc & _).
Qed.

(** A media type of such characters is a valid header value. *)
Lemma type_char_valid (s : string) :
  Str.forallb DataURI.type_char s = true -> HeaderValue.valid ("image" +:+ s) = true.
Proof.
  intros H. apply valid_of_plain. rewrite forallb_append.
  replace (Str.forallb (fun c => negb (HeaderValue.forbidden c)) "image") with true
    by reflexivity.
  cbn [andb]. revert H. apply forallb_impl.
  intros c H. destruct (type_char_inv c H) as (_ & _ & _ & Hc). by rewrite Hc.
Qed.

Lemma well_formed_payload : DataURI.base64Data href = Some payload.
Proof.
  unfold DataURI.base64Data, href.
  replace ("data:image" +:+ subtype +:+ ";" +:+ params +:+ "," +:+ payload)
    with (("data:image" +:+ subtype +:+ ";" +:+ params) +:+ String "," payload)
    by (by rewrite !append_assoc).
  rewrite split_at.
  - rewrite (split_plain _ _ (data_char_no_comma _ payload_plain)). simpl.
    by destruct payload.
  - rewrite !forallb_append.
    rewrite (data_char_no_comma _ (type_char_data_char _ subtype_plain)).
    by rewrite (data_char_no_comma _ params_plain).
Qed.

Lemma well_formed_inline : inline_payload href = Some payload.
Proof.
  unfold inline_payload.
  replace (Str.includes "data:image" href) with true by reflexivity.
  apply well_formed_payload.
Qed.

Lemma well_formed_media_type : DataURI.media_type href = "image" +:+ subtype.
Proof.
  rewrite media_type_unfold. unfold DataURI.match_here.
  replace (Str.strip_prefix "data:image" href)
    with (Some (subtype +:+ String ";" (params +:+ "," +:+ payload))) by reflexivity.
  rewrite (lazy_to_semicolon_type _ _ subtype_plain).
  rewrite after_dots_all; [apply append_empty_r |].
  rewrite !forallb_append.
  by rewrite (data_char_dot _ params_plain), (data_char_dot _ payload_plain).
Qed.

End WellFormed.

Lemma no_payload_no_inline (href : string) :
  DataURI.base64Data href = None -> inline_payload href = None.
Proof. unfold inline_payload. intros ->. by destruct (Str.includes _ _). Qed.

(** C5, as stated, fails.  The first discovered icon is an inline PNG with a
    payload that is not empty, wrapped after four characters.  The segment
    after the first comma is handed to the decoder, but the replace of
    lines 103-106 and 249-252 stops at the line feed (the dot of [.*] does
    not match it), so the content type keeps the rest of the payload, line
    feed included; the constructor of the response refuses that value and
    the [catch] answers 500, in both variants. *)
Lemma wrapped_inline_icon_counterexample :
  let w := Sample.offline [Sample.wrapped_icon] in
  let a := run w (GET VariantA Sample.request_headers "example.com") ∅ in
  let b := run w (GET VariantB Sample.request_headers "example.com") ∅ in
  let payload := "iVBO" +:+ Str.newline +:+ "Rw0KGgo=" in
  href Sample.wrapped_icon = "data:image/png;base64," +:+ payload
  /\ DataURI.base64Data (href Sample.wrapped_icon) = Some payload
  /\ DataURI.media_type (href Sample.wrapped_icon)
     = "image/png" +:+ Str.newline +:+ "Rw0KGgo="
  /\ List.filter is_retrieval (trace a) = [Call (BufferFromBase64 payload)]
  /\ List.filter is_retrieval (trace b) = [Call (BufferFromBase64 payload)]
  /\ result a = Returns failed
  /\ result b = Returns failed
  /\ status failed = 500
  /\ body failed = Text "Failed to fetch the icon"
  /\ header "Content-Type" failed = None.
Proof. vm_compute. repeat split. Qed.

(** C5, amended.  When the [href] of the selected icon is ASCII text of the
    form [data:image<subtype>;<parameters>,<payload>] with a payload that is
    not empty, no comma and no line terminator in any of the three parts,
    and neither semicolon nor NUL in the subtype, the response, in both
    variants, has status 200, the decoding of the payload by the base64
    decoder as body and [image<subtype>] as content type, and only the
    decoder is called for the content.  When the segment after the first
    comma of the [href] is absent or empty, control goes to the remote
    fetch, with the [href] of that same descriptor as the URL. *)
Theorem inline_icon_decoded_or_fetched
    (v : Variant) (w : World) (request_headers : Headers) (domain key : string)
    (st : gmap string (CacheEntry * Z)) (icon : Icon) (rest : list Icon) :
  validates v w st domain key ->
  valid_domain key = true ->
  let h := forwarded request_headers in
  discovered w key h = icon :: rest ->
  let r := run w (GET v request_headers domain) st in
  (forall subtype params payload : string,
     href icon = "data:image" +:+ subtype +:+ ";" +:+ params +:+ "," +:+ payload ->
     Str.forallb DataURI.type_char subtype = true ->
     Str.forallb DataURI.data_char params = true ->
     Str.forallb DataURI.data_char payload = true ->
     nonempty payload = true ->
     exists response,
       result r = Returns response
       /\ status response = 200
       /\ body response = Bytes (Buffer_from_base64 w payload)
       /\ header "Content-Type" response = Some ("image" +:+ subtype)
       /\ List.filter is_retrieval (trace r) = [Call (BufferFromBase64 payload)])
  /\ (DataURI.base64Data (href icon) = None ->
      List.filter is_retrieval (trace r) = [Call (Fetch (href icon) h)]).
Proof.
  intros R V h D r. subst h r. destruct v; cbn [GET validates] in *.
  - destruct R as [<- C].
    rewrite (GET_A_retrieve _ _ _ _ icon rest C V D). cbn [result trace].
    split.
    + intros subtype params payload E Hs Hp Hd Hn.
      pose proof (well_formed_inline subtype params payload Hs Hp Hd Hn) as P.
      pose proof (well_formed_media_type subtype params payload Hs Hp Hd) as M.
      rewrite <- E in P, M.
      rewrite (retrieve_A_inline w _ _ _ _ icon _ _ payload P).
      rewrite M, (type_char_valid _ Hs). cbn [result trace buffer contentType].
      eexists. split; [reflexivity |]. split; [reflexivity |].
      split; [reflexivity |]. split; [reflexivity |].
      by rewrite app_assoc, List.filter_app, opening_no_retrieval_A.
    + intros E. pose proof (no_payload_no_inline _ E) as P.
      rewrite (retrieve_A_remote _ _ _ _ icon P), fetch_icon_A_run.
      rewrite app_assoc, List.filter_app, opening_no_retrieval_A.
      destruct (fetch w (href icon) (forwarded request_headers)) as [fetched |];
        [destruct (ok fetched) |]; reflexivity.
  - rewrite (GET_B_retrieve _ _ _ _ key icon rest R V D). cbn [result trace].
    split.
    + intros subtype params payload E Hs Hp Hd Hn.
      pose proof (well_formed_inline subtype params payload Hs Hp Hd Hn) as P.
      pose proof (well_formed_media_type subtype params payload Hs Hp Hd) as M.
      rewrite <- E in P, M.
      rewrite (retrieve_B_inline w _ _ _ icon _ _ payload P).
      rewrite M, (type_char_valid _ Hs). cbn [result trace].
      eexists. split; [reflexivity |]. split; [reflexivity |].
      split; [reflexivity |]. split; [reflexivity |].
      by rewrite app_assoc, List.filter_app, opening_no_retrieval_B.
    + intros E. pose proof (no_payload_no_inline _ E) as P.
      rewrite (retrieve_B_remote _ _ _ icon P), fetch_icon_B_run.
      rewrite app_assoc, List.filter_app, opening_no_retrieval_B.
      destruct (fetch w (href icon) (forwarded request_headers)) as [fetched |];
        [destruct (ok fetched) |]; reflexivity.
Qed.

Lemma inline_icon_decoded_or_fetched_witness :
  let w := Sample.offline [Sample.png_icon] in
  let w' := Sample.offline [Sample.hollow_icon] in
  let h := forwarded Sample.request_headers in
  let r := run w (GET VariantB Sample.request_headers "example.com") ∅ in
  let r' := run w' (GET VariantA Sample.request_headers "example.com") ∅ in
  (validates VariantB w ∅ "example.com" "example.com"
   /\ validates VariantA w' ∅ "example.com" "example.com"
   /\ valid_domain "example.com" = true
   /\ discovered w "example.com" h = [Sample.png_icon]
   /\ discovered w' "example.com" h = [Sample.hollow_icon]
   /\ href Sample.png_icon
      = "data:image" +:+ "/png" +:+ ";" +:+ "base64" +:+ "," +:+ "iVBORw0KGgo="
   /\ DataURI.base64Data (href Sample.hollow_icon) = None)
  /\ (exists response,
        result r = Returns response
        /\ body response = Bytes Sample.png_signature
        /\ header "Content-Type" response = Some "image/png")
  /\ List.filter is_retrieval (trace r') = [Call (Fetch "data:image/png;base64," h)].
Proof.
  intros w w' h r r'.
  assert (validates VariantB w ∅ "example.com" "example.com") as R by reflexivity.
  assert (validates VariantA w' ∅ "example.com" "example.com") as R'
    by (split; reflexivity).
  assert (valid_domain "example.com" = true) as V by reflexivity.
  assert (discovered w "example.com" h = [Sample.png_icon]) as D by reflexivity.
  assert (discovered w' "example.com" h = [Sample.hollow_icon]) as D' by reflexivity.
  assert (href Sample.png_icon
          = "data:image" +:+ "/png" +:+ ";" +:+ "base64" +:+ "," +:+ "iVBORw0KGgo=")
    as E by reflexivity.
  assert (DataURI.base64Data (href Sample.hollow_icon) = None) as E' by reflexivity.
  split; [by repeat split |].
  pose proof (inline_icon_decoded_or_fetched VariantB w Sample.request_headers
                "example.com" "example.com" ∅ Sample.png_icon [] R V D) as T.
  pose proof (inline_icon_decoded_or_fetched VariantA w' Sample.request_headers
                "example.com" "example.com" ∅ Sample.hollow_icon [] R' V D') as T'.
  cbv zeta in T, T'. destruct T as [Inline _]. destruct T' as [_ Remote].
  destruct (Inline "/png" "base64" "iVBORw0KGgo=" E eq_refl eq_refl eq_refl eq_refl)
    as (response & Hr & _ & Hb & Ht & _).
  split; [| exact (Remote E')].
  exists response. split; [exact Hr |]. split; [exact Hb | exact Ht].
Defined.

(** ** The reach of the validation *)

(** C10.  The validation pattern is anchored at the end of the string only:
    a normalized hostname that ends with one or more labels of
    [[a-z0-9-]+] each followed by a dot, and then a run of [[a-z0-9]],
    passes the validation whatever comes before that suffix, and the
    request goes on to discovery over [http://<hostname>] instead of being
    answered with the placeholder.  [a_b.example.com], with its underscore,
    is such a hostname. *)
Theorem validation_looks_at_the_end_only
    (v : Variant) (w : World) (request_headers : Headers) (domain : string)
    (st : gmap string (CacheEntry * Z))
    (pre label : string) (labels : list string) (tld : string) :
  is_label label = true ->
  forallb is_label labels = true ->
  is_tld tld = true ->
  let hostname := pre +:+ dotted (label :: labels) tld in
  validates v w st domain hostname ->
  let r := run w (GET v request_headers domain) st in
  valid_domain hostname = true
  /\ exists more,
       List.filter is_discovery (trace r)
       = Call (GetFavicons ("http://" +:+ hostname) (forwarded request_headers))
         :: more.
Proof.
  intros Hl Hs Ht hostname R r. subst hostname r.
  pose proof (valid_domain_suffix pre label labels tld Hl Hs Ht) as V.
  split; [exact V |].
  rewrite (discovery_attempts v w request_headers domain _ st R V). by eexists.
Qed.

Lemma validation_looks_at_the_end_only_witness :
  let w := Sample.offline [] in
  let h := forwarded Sample.request_headers in
  let r := run w (GET VariantB Sample.request_headers "a_b.example.com") ∅ in
  (is_label "b" = true
   /\ forallb is_label ["example"] = true
   /\ is_tld "com" = true
   /\ "a_" +:+ dotted ["b"; "example"] "com" = "a_b.example.com"
   /\ validates VariantB w ∅ "a_b.example.com" "a_b.example.com")
  /\ valid_domain "a_b.example.com" = true
  /\ exists more,
       List.filter is_discovery (trace r)
       = Call (GetFavicons "http://a_b.example.com" h) :: more.
Proof.
  intros w h r.
  assert (validates VariantB w ∅ "a_b.example.com" "a_b.example.com") as R
    by reflexivity.
  split; [by repeat split |].
  exact (validation_looks_at_the_end_only VariantB w Sample.request_headers
           "a_b.example.com" ∅ "a_" "b" ["example"] "com"
           eq_refl eq_refl eq_refl R).
Defined.

(** ** Further properties of the handlers *)

(** *** How a request ends *)

(** X1.  Variant A returns a response when the cache does not answer, and
    when it answers with an entry whose stored content type is ASCII text
    and a valid header value.  When the stored content type is not a valid
    header value, the handler ends with the error of the constructor
    uncaught, after the four opening calls and with the cache as it was:
    the response of a cache hit is built outside any [try].  Variant B
    returns a response exactly when the URL parser accepts
    [http://<domain>]; when the parser rejects it, the handler ends with the
    uncaught error after having read the clock and called the parser, and
    nothing else.  (The proxy is one that answers, as [World] has it.) *)
Theorem outcome_of_a_request
    (w : World) (request_headers : Headers) (domain : string)
    (st : gmap string (CacheEntry * Z)) :
  let a := run w (GET_A request_headers domain) st in
  let b := run w (GET_B request_headers domain) st in
  let key := normalized w domain in
  ((forall e, cached w st key = Some e ->
              HeaderValue.valid (contentType e) = true
              /\ Str.ascii_text (contentType e) = true) ->
   exists response, result a = Returns response)
  /\ ((exists response, result a = Returns response) ->
      forall e, cached w st key = Some e -> HeaderValue.valid (contentType e) = true)
  /\ (forall e,
        cached w st key = Some e -> HeaderValue.valid (contentType e) = false ->
        result a = Uncaught "TypeError: invalid header value"
        /\ trace a = [Call DateNow; Call (NewURL ("http://" +:+ domain));
                      Call (CacheGet key); Call DateNow]
        /\ cache_after a = st)
  /\ (is_Some (URL_hostname w ("http://" +:+ domain)) <->
      exists response, result b = Returns response)
  /\ (URL_hostname w ("http://" +:+ domain) = None <->
      result b = Uncaught "TypeError: Invalid URL")
  /\ (URL_hostname w ("http://" +:+ domain) = None ->
      trace b = [Call DateNow; Call (NewURL ("http://" +:+ domain))]).
Proof.
  intros a b key. subst a b key. split; [| split; [| split; [| split; [| split]]]].
  - intros Valid.
    by_path_A w request_headers domain st; try by eexists.
    subst key.
    match goal with
    | C : cached _ _ _ = Some _ |- _ => apply Valid in C as [C _]; congruence
    end.
  - intros [response E] e C.
    destruct (HeaderValue.valid (contentType e)) eqn:T; [reflexivity |].
    rewrite (GET_A_hit_throws _ _ _ _ e C T) in E. discriminate E.
  - intros e C T. by rewrite (GET_A_hit_throws _ _ _ _ e C T).
  - split.
    + intros [key U]. by_path_B w request_headers domain st;
        try congruence; by eexists.
    + intros [response E]. revert E.
      by_path_B w request_headers domain st; intros E; try discriminate;
        by eexists.
  - split.
    + intros U. by rewrite (GET_B_throws _ _ _ _ U).
    + by_path_B w request_headers domain st; intros E; try discriminate; done.
  - intros U. by rewrite (GET_B_throws _ _ _ _ U).
Qed.

(** X2.  Variant B has no cache: whatever the request and the world, it
    makes no cache call and leaves the cache as it found it. *)
Theorem edge_variant_never_touches_the_cache
    (w : World) (request_headers : Headers) (domain : string)
    (st : gmap string (CacheEntry * Z)) :
  let b := run w (GET_B request_headers domain) st in
  cache_after b = st /\ List.filter is_cache_call (trace b) = [].
Proof.
  intros b. subst b.
  assert (forall key h, List.filter is_cache_call (discovery_calls w key h) = []) as D.
  { intros key h. apply filter_none. intros ev I.
    destruct (discovery_calls_kind w key h ev I) as [-> | [-> | [-> | ->]]];
      reflexivity. }
  by_path_B w request_headers domain st;
    (split; [reflexivity |]); rewrite ?List.filter_app, ?D; reflexivity.
Qed.

(** *** Forwarded headers *)

Lemma Headers_delete_In (name : string) (h : Headers) (n val : string) :
  In (n, val) (Headers_delete name h) <->
  In (n, val) h /\ Str.toLowerCase n <> Str.toLowerCase name.
Proof.
  unfold Headers_delete. rewrite List.filter_In. cbn [fst].
  rewrite negb_true_iff, String.eqb_neq. reflexivity.
Qed.

Lemma PathA_call_headers w request_headers domain st r ev h :
  PathA w request_headers domain st r ->
  In ev (trace r) -> call_headers ev = Some h -> h = forwarded request_headers.
Proof.
  intros P I C.
  destruct P; cbn [trace] in I; events; simpl in C; try discriminate;
    by injection C as <-.
Qed.

Lemma PathB_call_headers w request_headers domain st r ev h :
  PathB w request_headers domain st r ->
  In ev (trace r) -> call_headers ev = Some h -> h = forwarded request_headers.
Proof.
  intros P I C.
  destruct P; cbn [trace] in I; events; simpl in C; try discriminate;
    by injection C as <-.
Qed.

(** X3.  In both variants every call of the discovery collaborator and
    every remote fetch is handed the same header set: the request headers
    without [host] and [Content-Length], names compared without regard to
    case, every other header kept. *)
Theorem host_and_content_length_are_not_forwarded
    (v : Variant) (w : World) (request_headers : Headers) (domain : string)
    (st : gmap string (CacheEntry * Z)) :
  let r := run w (GET v request_headers domain) st in
  (forall ev h,
     In ev (trace r) -> call_headers ev = Some h ->
     h = forwarded request_headers)
  /\ (forall n val,
        In (n, val) (forwarded request_headers) <->
        In (n, val) request_headers
        /\ Str.toLowerCase n <> "host"
        /\ Str.toLowerCase n <> "content-length").
Proof.
  intros r. subst r. split.
  - intros ev h. destruct v; cbn [GET].
    + apply (PathA_call_headers w request_headers domain st), GET_A_path.
    + apply (PathB_call_headers w request_headers domain st), GET_B_path.
  - intros n val. unfold forwarded. rewrite !Headers_delete_In.
    change (Str.toLowerCase "host") with "host".
    change (Str.toLowerCase "Content-Length") with "content-length".
    tauto.
Qed.

(** *** The error path *)

(** X4.  When the remote fetch of the selected icon is rejected, both
    variants log the error and answer with status 500 and the plain text
    [Failed to fetch the icon]; nothing is written to the cache. *)
Theorem rejected_fetch_gives_500
    (v : Variant) (w : World) (request_headers : Headers) (domain key : string)
    (st : gmap string (CacheEntry * Z)) (icon : Icon) (rest : list Icon) :
  validates v w st domain key ->
  valid_domain key = true ->
  let h := forwarded request_headers in
  discovered w key h = icon :: rest ->
  inline_payload (href icon) = None ->
  fetch w (href icon) h = None ->
  let r := run w (GET v request_headers domain) st in
  result r = Returns failed
  /\ status failed = 500
  /\ body failed = Text "Failed to fetch the icon"
  /\ (exists before,
        trace r = before ++ [Call (Fetch (href icon) h); Call ConsoleError])
  /\ List.filter is_cache_write (trace r) = [].
Proof.
  intros R V h D P F r. subst h r. destruct v; cbn [GET validates] in *.
  - destruct R as [<- C].
    rewrite (GET_A_retrieve _ _ _ _ icon rest C V D).
    rewrite (retrieve_A_remote _ _ _ _ _ P), fetch_icon_A_run, F.
    cbn [result trace]. repeat split.
    + eexists. by rewrite app_assoc.
    + by rewrite !List.filter_app, discovery_calls_no_write.
  - rewrite (GET_B_retrieve _ _ _ _ key icon rest R V D).
    rewrite (retrieve_B_remote _ _ _ _ P), fetch_icon_B_run, F.
    cbn [result trace]. repeat split.
    + eexists. by rewrite app_assoc.
    + by rewrite !List.filter_app, discovery_calls_no_write.
Qed.

Lemma rejected_fetch_gives_500_witness :
  let w := Sample.offline [Sample.ico_icon; Sample.big_icon] in
  let h := forwarded Sample.request_headers in
  let a := run w (GET VariantA Sample.request_headers "example.com") ∅ in
  (validates VariantA w ∅ "example.com" "example.com"
   /\ valid_domain "example.com" = true
   /\ discovered w "example.com" h = [Sample.ico_icon; Sample.big_icon]
   /\ inline_payload (href Sample.ico_icon) = None
   /\ fetch w (href Sample.ico_icon) h = None)
  /\ result a = Returns failed
  /\ cache_after a = ∅.
Proof.
  intros w h a.
  assert (validates VariantA w ∅ "example.com" "example.com") as R
    by (split; reflexivity).
  assert (valid_domain "example.com" = true) as V by reflexivity.
  assert (discovered w "example.com" h = [Sample.ico_icon; Sample.big_icon]) as D
    by reflexivity.
  assert (inline_payload (href Sample.ico_icon) = None) as P by reflexivity.
  assert (fetch w (href Sample.ico_icon) h = None) as F by reflexivity.
  split; [by repeat split |].
  pose proof (rejected_fetch_gives_500 VariantA w Sample.request_headers "example.com"
                "example.com" ∅ Sample.ico_icon [Sample.big_icon] R V D P F) as T.
  cbv zeta in T. split; [exact (proj1 T) | reflexivity].
Defined.

(** *** What a request does to the cache *)

Lemma lookup_other (w : World) (st st1 : gmap string (CacheEntry * Z))
    (key k : string) (c : option CacheEntry) (n1 : nat) :
  lookup w st key = (c, st1, n1) -> k <> key -> st1 !! k = st !! k.
Proof.
  unfold lookup, answer, Keyv.get. intros L Hne.
  destruct (st !! key) as [[v expires] |]; [| by injection L as _ <- _].
  destruct (expires <? Date_now w 1); injection L as _ <- _; cbn [snd fst];
    [by apply lookup_delete_ne | reflexivity].
Qed.

Lemma lookup_stale (w : World) (st : gmap string (CacheEntry * Z)) (key : string)
    (e : CacheEntry) (expires : Z) :
  st !! key = Some (e, expires) ->
  expires < Date_now w 1 ->
  lookup w st key = (None, delete key st, 2%nat).
Proof.
  intros E T. unfold lookup, answer, Keyv.get. rewrite E.
  apply Z.ltb_lt in T. by rewrite T.
Qed.

(** Either a request writes nothing, and the cache is as the lookup left
    it, or it writes once, before it builds its response: the 200 response
    of that entry, or the 500 of the [catch] when the constructor refuses
    the content type. *)
Lemma GET_A_cache_effect w request_headers domain st :
  let r := run w (GET_A request_headers domain) st in
  let key := normalized w domain in
  (List.filter is_cache_write (trace r) = []
   /\ cache_after r = (lookup w st key).1.2)
  \/ (exists entry n,
        List.filter is_cache_write (trace r) = [Call (CacheSet key entry ttl)]
        /\ cache_after r !! key = Some (entry, Date_now w n + ttl)
        /\ ((HeaderValue.valid (contentType entry) = true
             /\ exists t unit,
                  result r
                  = Returns (miss_response (buffer entry) (contentType entry) t unit))
            \/ (HeaderValue.valid (contentType entry) = false
                /\ result r = Returns failed
                /\ exists payload, In (Call (BufferFromBase64 payload)) (trace r)))).
Proof.
  intros r key. subst r key.
  by_path_A w request_headers domain st; subst.
  - left. split; [reflexivity |].
    match goal with H : cached _ _ _ = Some _ |- _ =>
      apply cached_Some in H as (expires & _ & _ & ->) end.
    reflexivity.
  - left. split; [reflexivity |].
    match goal with H : cached _ _ _ = Some _ |- _ =>
      apply cached_Some in H as (expires & _ & _ & ->) end.
    reflexivity.
  - left. match goal with H : lookup _ _ _ = _ |- _ => rewrite H end. by split.
  - left. match goal with H : lookup _ _ _ = _ |- _ => rewrite H end.
    split; [| reflexivity].
    by rewrite !List.filter_app, discovery_calls_no_write.
  - right. exists entry, n1.
    split; [by rewrite !List.filter_app, discovery_calls_no_write |].
    split; [apply lookup_insert_eq |].
    left. split; [assumption |]. by do 2 eexists.
  - right. exists entry, n1.
    split; [by rewrite !List.filter_app, discovery_calls_no_write |].
    split; [apply lookup_insert_eq |].
    right. split; [assumption |]. split; [reflexivity |].
    exists payload. rewrite !in_app_iff. right. right. by left.
  - left. match goal with H : lookup _ _ _ = _ |- _ => rewrite H end.
    split; [| reflexivity].
    by rewrite !List.filter_app, discovery_calls_no_write.
  - left. match goal with H : lookup _ _ _ = _ |- _ => rewrite H end.
    split; [| reflexivity].
    by rewrite !List.filter_app, discovery_calls_no_write.
  - right. exists entry, n1.
    split; [by rewrite !List.filter_app, discovery_calls_no_write |].
    split; [apply lookup_insert_eq |].
    left. split; [apply valid_content_type_or_png |]. by do 2 eexists.
Qed.

(** X5.  Variant A writes to the cache at most once in a request, under the
    normalized domain with the 24-hour time to live, and before it builds
    the response.  After a write the answer is either the 200 response with
    the bytes and the type of the entry, or, on the inline branch, the 500
    of the [catch]: the constructor has thrown after the write, and the
    entry stays in the cache.  It is the 500 when the content type of the
    entry is not a valid header value, and the 200 response when that type
    is ASCII text and a valid header value.  A placeholder (status 404) is
    never cached. *)
Theorem cache_write_precedes_the_response
    (w : World) (request_headers : Headers) (domain : string)
    (st : gmap string (CacheEntry * Z)) :
  let r := run w (GET_A request_headers domain) st in
  let key := normalized w domain in
  ((List.filter is_cache_write (trace r) = []
    /\ cache_after r = (lookup w st key).1.2)
   \/ (exists entry n,
         List.filter is_cache_write (trace r)
         = [Call (CacheSet key entry (24 * 60 * 60 * 1000))]
         /\ cache_after r !! key = Some (entry, Date_now w n + 24 * 60 * 60 * 1000)
         /\ ((exists t unit,
                result r
                = Returns (miss_response (buffer entry) (contentType entry) t unit))
             \/ (result r = Returns failed
                 /\ exists payload, In (Call (BufferFromBase64 payload)) (trace r)))
         /\ (HeaderValue.valid (contentType entry) = false ->
             result r = Returns failed)
         /\ (HeaderValue.valid (contentType entry) = true ->
             Str.ascii_text (contentType entry) = true ->
             exists t unit,
               result r
               = Returns (miss_response (buffer entry) (contentType entry) t unit))))
  /\ (forall response,
        result r = Returns response -> status response = 404 ->
        List.filter is_cache_write (trace r) = []).
Proof.
  intros r key. subst r key.
  pose proof (GET_A_cache_effect w request_headers domain st) as E. cbv zeta in E.
  split.
  - destruct E as [E | (entry & n & W & C & [(T & t & unit & E) | (T & E & P)])];
      [by left | |]; right; exists entry, n.
    + split; [exact W |]. split; [exact C |]. split; [left; by exists t, unit |].
      split; [intros F; congruence | intros _ _; by exists t, unit].
    + split; [exact W |]. split; [exact C |]. split; [right; by split |].
      split; [by intros _ | intros F; congruence].
  - intros response R S.
    destruct E as [[E _] | (entry & n & _ & _ & [(_ & t & unit & E) | (_ & E & _)])];
      [exact E | |]; rewrite E in R; injection R as <-; discriminate S.
Qed.

(** X15.  An inline icon whose derived content type is not a valid header
    value poisons the cache of Variant A.  The request that finds it is
    answered 500, but its entry has been written; every following request
    for the same normalized domain, looked up no later than the expiry, is
    answered from that entry, and the constructor of the hit response,
    called outside any [try], throws: the request ends with an uncaught
    error after the four opening calls, and the entry stays. *)
Theorem failed_inline_answer_stays_in_the_cache
    (w1 w2 : World) (headers1 headers2 : Headers) (domain1 domain2 : string)
    (st : gmap string (CacheEntry * Z))
    (icon : Icon) (rest : list Icon) (payload : string) :
  let key := normalized w1 domain1 in
  cached w1 st key = None ->
  valid_domain key = true ->
  discovered w1 key (forwarded headers1) = icon :: rest ->
  inline_payload (href icon) = Some payload ->
  HeaderValue.valid (DataURI.media_type (href icon)) = false ->
  let first := run w1 (GET_A headers1 domain1) st in
  let entry :=
    mkEntry (Buffer_from_base64 w1 payload) (DataURI.media_type (href icon)) in
  result first = Returns failed
  /\ exists n : nat,
       let expires := Date_now w1 n + 24 * 60 * 60 * 1000 in
       cache_after first !! key = Some (entry, expires)
       /\ (normalized w2 domain2 = key ->
           Date_now w2 1 <= expires ->
           let second := run w2 (GET_A headers2 domain2) (cache_after first) in
           result second = Uncaught "TypeError: invalid header value"
           /\ trace second
              = [Call DateNow; Call (NewURL ("http://" +:+ domain2));
                 Call (CacheGet key); Call DateNow]
           /\ cache_after second = cache_after first).
Proof.
  intros key C V D P T first entry. subst key first entry.
  rewrite (GET_A_retrieve _ _ _ _ icon rest C V D).
  rewrite (retrieve_A_inline w1 _ _ _ _ icon _ _ payload P), T.
  cbn [result cache_after]. split; [reflexivity |].
  exists (lookup w1 st (normalized w1 domain1)).2.
  split; [apply lookup_insert_eq |].
  intros Same Fresh. set (st2 := Keyv.set _ _ _ _ _).
  set (entry := mkEntry _ _) in *.
  assert (cached w2 st2 (normalized w2 domain2) = Some entry) as C2.
  { rewrite Same. eapply cached_fresh; [apply lookup_insert_eq | exact Fresh]. }
  by rewrite (GET_A_hit_throws _ _ _ _ entry C2 T), Same.
Qed.

Lemma failed_inline_answer_stays_in_the_cache_witness :
  let w1 := Sample.offline [Sample.wrapped_icon] in
  let payload := "iVBO" +:+ Str.newline +:+ "Rw0KGgo=" in
  let first := run w1 (GET_A Sample.request_headers "Example.com") ∅ in
  let second := run Sample.later (GET_A [] "example.com") (cache_after first) in
  (cached w1 ∅ (normalized w1 "Example.com") = None
   /\ valid_domain (normalized w1 "Example.com") = true
   /\ discovered w1 (normalized w1 "Example.com") (forwarded Sample.request_headers)
      = [Sample.wrapped_icon]
   /\ inline_payload (href Sample.wrapped_icon) = Some payload
   /\ HeaderValue.valid (DataURI.media_type (href Sample.wrapped_icon)) = false
   /\ normalized Sample.later "example.com" = normalized w1 "Example.com")
  /\ result first = Returns failed
  /\ result second = Uncaught "TypeError: invalid header value"
  /\ length (trace second) = 4%nat.
Proof.
  intros w1 payload first second.
  assert (cached w1 ∅ (normalized w1 "Example.com") = None) as C by reflexivity.
  assert (valid_domain (normalized w1 "Example.com") = true) as V by reflexivity.
  assert (discovered w1 (normalized w1 "Example.com") (forwarded Sample.request_headers)
          = [Sample.wrapped_icon]) as D by reflexivity.
  assert (inline_payload (href Sample.wrapped_icon) = Some payload) as P by reflexivity.
  assert (HeaderValue.valid (DataURI.media_type (href Sample.wrapped_icon)) = false) as T
    by reflexivity.
  assert (normalized Sample.later "example.com" = normalized w1 "Example.com") as Same
    by reflexivity.
  split; [by repeat split |].
  pose proof (failed_inline_answer_stays_in_the_cache w1 Sample.later
                Sample.request_headers [] "Example.com" "example.com" ∅
                Sample.wrapped_icon [] payload) as H.
  cbv zeta in H. specialize (H C V D P T).
  destruct H as (First & n & Written & Next).
  split; [exact First |].
  assert (Date_now Sample.later 1 <= Date_now w1 n + 24 * 60 * 60 * 1000) as Fresh.
  { simpl. lia. }
  destruct (Next Same Fresh) as (Second & Calls & _).
  split; [exact Second |]. exact (f_equal (@length Event) Calls).
Defined.

(** X6.  A request of Variant A leaves the cache entries of every other
    key as they were: it can change the cache under its own normalized
    domain only. *)
Theorem other_keys_are_untouched
    (w : World) (request_headers : Headers) (domain k : string)
    (st : gmap string (CacheEntry * Z)) :
  k <> normalized w domain ->
  cache_after (run w (GET_A request_headers domain) st) !! k = st !! k.
Proof.
  intros Hne.
  by_path_A w request_headers domain st; subst; try reflexivity;
    try (eapply lookup_other; eassumption);
    unfold Keyv.set; rewrite lookup_insert_ne by congruence;
    eapply lookup_other; eassumption.
Qed.

Lemma other_keys_are_untouched_witness :
  let w := Sample.offline [Sample.png_icon] in
  let w' := Sample.world 61000 [Sample.png_icon] None in
  let st := cache_after (run w (GET_A Sample.request_headers "example.com") ∅) in
  let r := run w' (GET_A Sample.request_headers "other.org") st in
  "example.com" <> normalized w' "other.org"
  /\ cache_after r !! "example.com" = st !! "example.com"
  /\ st !! "example.com"
     = Some (mkEntry Sample.png_signature "image/png", 1005 + 86400000)
  /\ cache_after r !! "other.org"
     = Some (mkEntry Sample.png_signature "image/png", 61005 + 86400000).
Proof.
  intros w w' st r.
  assert ("example.com" <> normalized w' "other.org") as Hne by discriminate.
  split; [exact Hne |].
  split; [exact (other_keys_are_untouched w' Sample.request_headers "other.org"
                   "example.com" st Hne) |].
  by vm_compute.
Defined.

(** X7.  An entry whose expiry has passed is not served.  When the cache
    that a request of Variant A finds holds an entry for its normalized
    domain with an expiry earlier than the time of the lookup, the lookup
    misses, the request goes through discovery as on an empty cache, and
    the stale entry is gone afterwards unless the request writes a new
    one. *)
Theorem stale_entry_is_not_served
    (w : World) (request_headers : Headers) (domain : string)
    (st : gmap string (CacheEntry * Z)) (e : CacheEntry) (expires : Z) :
  let key := normalized w domain in
  let h := forwarded request_headers in
  reachable st ->
  st !! key = Some (e, expires) ->
  expires < Date_now w 1 ->
  let r := run w (GET_A request_headers domain) st in
  cached w st key = None
  /\ List.filter is_discovery (trace r)
     = Call (GetFavicons ("http://" +:+ key) h)
       :: match found_over_http w key h with
          | [] => [Call (GetFavicons ("https://" +:+ key) h)]
          | _ :: _ => []
          end
  /\ (List.filter is_cache_write (trace r) = [] -> cache_after r !! key = None).
Proof.
  intros key h R E T r. subst key h r.
  pose proof (lookup_stale w st _ e expires E T) as L.
  pose proof (cached_lookup _ _ _ _ _ L) as C.
  pose proof (reachable_keys st R _ _ E) as V.
  split; [exact C |]. split.
  - apply (discovery_attempts VariantA). + by split. + exact V.
  - intros NoWrite.
    destruct (GET_A_cache_effect w request_headers domain st)
      as [[_ ->] | (entry & n & W & _)].
    + rewrite L. apply lookup_delete_eq.
    + rewrite W in NoWrite. discriminate.
Qed.

Lemma stale_entry_is_not_served_witness :
  let w := Sample.offline [Sample.png_icon] in
  let st := cache_after (run w (GET_A Sample.request_headers "example.com") ∅) in
  let next_day := Sample.world 90000000 [] None in
  let r := run next_day (GET_A Sample.request_headers "example.com") st in
  (reachable st
   /\ st !! normalized next_day "example.com"
      = Some (mkEntry Sample.png_signature "image/png", 86401005)
   /\ 86401005 < Date_now next_day 1)
  /\ cached next_day st "example.com" = None
  /\ result r = Returns Sample.proxied
  /\ cache_after r !! "example.com" = None.
Proof.
  intros w st next_day r.
  assert (reachable st) as R by (apply reachable_request, reachable_init).
  assert (st !! normalized next_day "example.com"
          = Some (mkEntry Sample.png_signature "image/png", 86401005)) as E
    by (by vm_compute).
  assert (86401005 < Date_now next_day 1) as T by (by vm_compute).
  split; [by repeat split |].
  pose proof (stale_entry_is_not_served next_day Sample.request_headers "example.com"
                st _ _ R E T) as S.
  cbv zeta in S. destruct S as (C & _ & Gone).
  split; [exact C |]. split; [by vm_compute |].
  apply Gone. by vm_compute.
Defined.

(** *** What the validation accepts *)

Lemma lang_nullable (r : RegExp.regex) :
  RegExp.nullable r = true -> RegExp.lang r EmptyString.
Proof.
  induction r as [| | p | r1 IH1 r2 IH2 | r1 IH1 r2 IH2 | r IH]; simpl; intros H;
    try discriminate.
  - constructor.
  - apply andb_true_iff in H as [H1 H2].
    change EmptyString with (EmptyString +:+ EmptyString).
    constructor; [by apply IH1 | by apply IH2].
  - apply orb_true_iff in H as [H | H].
    + apply RegExp.lang_alt_l. by apply IH1.
    + apply RegExp.lang_alt_r. by apply IH2.
  - constructor.
Qed.

Lemma lang_deriv (r : RegExp.regex) (c : ascii) (s : string) :
  RegExp.lang (RegExp.deriv c r) s -> RegExp.lang r (String c s).
Proof.
  revert s.
  induction r as [| | p | r1 IH1 r2 IH2 | r1 IH1 r2 IH2 | r IH]; simpl; intros s H.
  - inversion H.
  - inversion H.
  - destruct (p c) eqn:Hp; inversion H; subst. by constructor.
  - assert (forall t, RegExp.lang (RegExp.Seq (RegExp.deriv c r1) r2) t ->
                      RegExp.lang (RegExp.Seq r1 r2) (String c t)) as Left.
    { intros t Ht. inversion Ht; subst. rewrite <- append_cons.
      constructor; [by apply IH1 | done]. }
    destruct (RegExp.nullable r1) eqn:N; [| by apply Left].
    inversion H; subst; [by apply Left |].
    change (String c s) with (EmptyString +:+ String c s).
    constructor; [by apply lang_nullable | by apply IH2].
  - inversion H; subst.
    + apply RegExp.lang_alt_l. by apply IH1.
    + apply RegExp.lang_alt_r. by apply IH2.
  - inversion H; subst. rewrite <- append_cons.
    constructor; [by apply IH | done].
Qed.

Lemma matches_lang (r : RegExp.regex) (s : string) :
  RegExp.matches r s = true -> RegExp.lang r s.
Proof.
  revert r. induction s as [| c s IH]; simpl; intros r H.
  - by apply lang_nullable.
  - apply lang_deriv. by apply IH.
Qed.

Lemma suffixes_prefix (s suf : string) :
  In suf (Str.suffixes s) -> exists pre, s = pre +:+ suf.
Proof.
  induction s as [| c s IH]; simpl.
  - intros [<- | []]. by exists EmptyString.
  - intros [<- | I]; [by exists EmptyString |].
    destruct (IH I) as [pre ->]. by exists (String c pre).
Qed.

Lemma lang_class_inv (p : ascii -> bool) (s : string) :
  RegExp.lang (RegExp.Class p) s -> exists c, s = String c EmptyString /\ p c = true.
Proof. intros H. inversion H; subst. by eexists. Qed.

Lemma lang_star_class_inv (p : ascii -> bool) (s : string) :
  RegExp.lang (RegExp.Star (RegExp.Class p)) s -> Str.forallb p s = true.
Proof.
  intros H. remember (RegExp.Star (RegExp.Class p)) as r eqn:E.
  induction H as [| | | | | r0 | r0 s1 s2 H1 _ H2 IH2]; try discriminate.
  - reflexivity.
  - injection E as ->. destruct (lang_class_inv _ _ H1) as (c & -> & Hc).
    rewrite append_cons, append_empty_l. simpl. by rewrite Hc, IH2.
Qed.

Lemma lang_plus_class_inv (p : ascii -> bool) (s : string) :
  RegExp.lang (RegExp.Plus (RegExp.Class p)) s ->
  nonempty s && Str.forallb p s = true.
Proof.
  intros H. inversion H as [| | r1 r2 s1 s2 H1 H2 | | | |]; subst.
  destruct (lang_class_inv _ _ H1) as (c & -> & Hc).
  rewrite append_cons, append_empty_l. simpl.
  by rewrite Hc, (lang_star_class_inv _ _ H2).
Qed.

(** A word of [x*] is empty or ends with a word of [x]. *)
Lemma lang_star_last (x : RegExp.regex) (s : string) :
  RegExp.lang (RegExp.Star x) s ->
  s = EmptyString \/ exists front word, s = front +:+ word /\ RegExp.lang x word.
Proof.
  intros H. remember (RegExp.Star x) as r eqn:E.
  induction H as [| | | | | r0 | r0 s1 s2 H1 _ H2 IH2]; try discriminate.
  - by left.
  - injection E as ->. right.
    destruct (IH2 eq_refl) as [-> | (front & word & -> & Hw)].
    + exists EmptyString, s1. by rewrite append_empty_r.
    + exists (s1 +:+ front), word. by rewrite append_assoc.
Qed.

(** A run of characters that is not empty has a last character. *)
Lemma last_char (p : ascii -> bool) (s : string) :
  nonempty s && Str.forallb p s = true ->
  exists front c, s = front +:+ String c EmptyString /\ p c = true.
Proof.
  induction s as [| a s IH]; simpl; [discriminate |]. intros H.
  apply andb_true_iff in H as [Ha Hs].
  destruct s as [| b s'].
  - by exists EmptyString, a.
  - destruct IH as (front & c & E & Hc); [by rewrite Hs |].
    exists (String a front), c. by rewrite E.
Qed.

(** Every word of the pattern ends with a label character, a dot and a
    last run. *)
Lemma lang_domain_pattern_inv (s : string) :
  RegExp.lang domain_pattern s ->
  exists front c tld,
    s = front +:+ String c ("." +:+ tld) /\ label_char c = true /\ is_tld tld = true.
Proof.
  intros H. unfold domain_pattern in H.
  inversion H as [| | r1 r2 labels tld Hlabels Htld | | | |]; subst.
  apply lang_plus_class_inv in Htld.
  assert (exists front word,
            labels = front +:+ word
            /\ RegExp.lang (RegExp.Seq (RegExp.Plus (RegExp.Class label_char))
                              (RegExp.Chr ".")) word)
    as (front & word & -> & Hword).
  { inversion Hlabels as [| | r1 r2 first others Hfirst Hothers | | | |]; subst.
    destruct (lang_star_last _ _ Hothers) as [-> | (front & word & -> & Hw)].
    - exists EmptyString, first. by rewrite append_empty_r.
    - exists (first +:+ front), word. by rewrite append_assoc. }
  inversion Hword as [| | r1 r2 label dot Hlabel Hdot | | | |]; subst.
  apply lang_plus_class_inv, last_char in Hlabel as (lfront & c & -> & Hc).
  destruct (lang_class_inv _ _ Hdot) as (d & -> & Hd).
  apply Ascii.eqb_eq in Hd. subst d.
  exists (front +:+ lfront), c, tld. split; [| by split].
  by rewrite !append_assoc.
Qed.

(** X8.  The validation accepts exactly the strings that end with a
    character of [[a-z0-9-]], a dot, and a run of [[a-z0-9]] that is not
    empty and reaches the end of the string; nothing is required of what
    comes before. *)
Theorem valid_domain_characterized (s : string) :
  valid_domain s = true <->
  exists front c tld,
    s = front +:+ String c ("." +:+ tld) /\ label_char c = true /\ is_tld tld = true.
Proof.
  split.
  - unfold valid_domain, RegExp.test_to_end. intros H.
    apply existsb_exists in H as (suf & I & M).
    destruct (suffixes_prefix _ _ I) as [pre ->].
    apply matches_lang, lang_domain_pattern_inv in M
      as (front & c & tld & -> & Hc & Ht).
    exists (pre +:+ front), c, tld. split; [| by split].
    by rewrite append_assoc.
  - intros (front & c & tld & -> & Hc & Ht).
    apply (valid_domain_suffix front (String c EmptyString) [] tld); try done.
    unfold is_label. simpl. by rewrite Hc.
Qed.

(** *** The two variants side by side *)

(** X9.  For a domain that the URL parser accepts and that the cache of
    Variant A does not answer, the two variants give the client the same
    thing: the same status, body, content type, content length and cache
    control.  Their responses differ in the [X-Cache] and
    [X-Execution-Time] headers only. *)
Theorem variants_agree_on_a_miss
    (w : World) (request_headers : Headers) (domain key : string)
    (st : gmap string (CacheEntry * Z)) :
  URL_hostname w ("http://" +:+ domain) = Some key ->
  cached w st key = None ->
  essentials (result (run w (GET_A request_headers domain) st))
  = essentials (result (run w (GET_B request_headers domain) st)).
Proof.
  intros U C.
  assert (normalized w domain = key) as N by (unfold normalized; by rewrite U).
  subst key.
  destruct (valid_domain (normalized w domain)) eqn:V.
  2: { by rewrite (GET_A_invalid _ _ _ _ C V), (GET_B_invalid _ _ _ _ _ U V). }
  destruct (discovered w (normalized w domain) (forwarded request_headers))
    as [| icon rest] eqn:D.
  { by rewrite (GET_A_proxy _ _ _ _ C V D), (GET_B_proxy _ _ _ _ _ U V D). }
  rewrite (GET_A_retrieve _ _ _ _ icon rest C V D).
  rewrite (GET_B_retrieve _ _ _ _ _ icon rest U V D).
  cbn [result].
  destruct (inline_payload (href icon)) as [payload |] eqn:P.
  { rewrite (retrieve_A_inline w _ _ _ _ icon _ _ payload P),
            (retrieve_B_inline w _ _ _ icon _ _ payload P).
    by destruct (HeaderValue.valid (DataURI.media_type (href icon))). }
  rewrite (retrieve_A_remote _ _ _ _ _ P), (retrieve_B_remote _ _ _ _ P).
  rewrite fetch_icon_A_run, fetch_icon_B_run.
  destruct (fetch w (href icon) (forwarded request_headers)) as [fetched |];
    [destruct (ok fetched) |]; reflexivity.
Qed.

Lemma variants_agree_on_a_miss_witness :
  let w := Sample.online [Sample.ico_icon] Sample.untyped_icon in
  let a := run w (GET_A Sample.request_headers "Example.com") ∅ in
  let b := run w (GET_B Sample.request_headers "Example.com") ∅ in
  (URL_hostname w "http://Example.com" = Some "example.com"
   /\ cached w ∅ "example.com" = None)
  /\ essentials (result a) = essentials (result b)
  /\ essentials (result b)
     = Some (200, Bytes (arrayBuffer Sample.untyped_icon), Some "image/png",
             Some "5", Some "public, max-age=86400").
Proof.
  intros w a b.
  assert (URL_hostname w ("http://" +:+ "Example.com") = Some "example.com") as U
    by reflexivity.
  assert (cached w ∅ "example.com" = None) as C by reflexivity.
  split; [by split |].
  split; [| reflexivity].
  exact (variants_agree_on_a_miss w Sample.request_headers "Example.com"
           "example.com" ∅ U C).
Defined.

(** *** Inline icons, whatever their shape *)

Lemma discovery_calls_no_fetch w key h :
  List.filter is_fetch (discovery_calls w key h) = [].
Proof.
  apply filter_none. intros ev I.
  destruct (discovery_calls_kind w key h ev I) as [-> | [-> | [-> | ->]]]; reflexivity.
Qed.

(** The inline branch, for both variants. *)
Lemma inline_run
    (v : Variant) (w : World) (request_headers : Headers) (domain key : string)
    (st : gmap string (CacheEntry * Z)) (icon : Icon) (rest : list Icon)
    (payload : string) :
  validates v w st domain key ->
  valid_domain key = true ->
  discovered w key (forwarded request_headers) = icon :: rest ->
  inline_payload (href icon) = Some payload ->
  let r := run w (GET v request_headers domain) st in
  List.filter is_retrieval (trace r) = [Call (BufferFromBase64 payload)]
  /\ List.filter is_fetch (trace r) = []
  /\ (HeaderValue.valid (DataURI.media_type (href icon)) = true ->
      exists response,
        result r = Returns response
        /\ status response = 200
        /\ body response = Bytes (Buffer_from_base64 w payload)
        /\ header "Content-Type" response = Some (DataURI.media_type (href icon)))
  /\ (HeaderValue.valid (DataURI.media_type (href icon)) = false ->
      result r = Returns failed).
Proof.
  intros R V D P r. subst r. destruct v; cbn [GET validates] in *.
  - destruct R as [<- C].
    rewrite (GET_A_retrieve _ _ _ _ icon rest C V D).
    rewrite (retrieve_A_inline w _ _ _ _ icon _ _ payload P).
    destruct (HeaderValue.valid (DataURI.media_type (href icon)));
      cbn [result trace].
    + split; [by rewrite app_assoc, List.filter_app, opening_no_retrieval_A |].
      split; [by rewrite !List.filter_app, discovery_calls_no_fetch |].
      split; [| discriminate]. intros _. eexists. by repeat split.
    + split; [by rewrite app_assoc, List.filter_app, opening_no_retrieval_A |].
      split; [by rewrite !List.filter_app, discovery_calls_no_fetch |].
      split; [discriminate | reflexivity].
  - rewrite (GET_B_retrieve _ _ _ _ key icon rest R V D).
    rewrite (retrieve_B_inline w _ _ _ icon _ _ payload P).
    destruct (HeaderValue.valid (DataURI.media_type (href icon)));
      cbn [result trace].
    + split; [by rewrite app_assoc, List.filter_app, opening_no_retrieval_B |].
      split; [by rewrite !List.filter_app, discovery_calls_no_fetch |].
      split; [| discriminate]. intros _. eexists. by repeat split.
    + split; [by rewrite app_assoc, List.filter_app, opening_no_retrieval_B |].
      split; [by rewrite !List.filter_app, discovery_calls_no_fetch |].
      split; [discriminate | reflexivity].
Qed.

(** X10.  The test for an inline icon is a substring test, and the payload
    is one segment of the [href].  Whenever the [href] of the selected icon
    contains [data:image], wherever that is, and the segment between its
    first and its second comma is not empty, both variants hand that segment
    alone to the decoder and make no remote fetch: what follows a second
    comma is never decoded.  For an [href] that is ASCII text they answer
    200 with the decoding of the segment as body when the content type that
    the replace leaves of the [href] is a valid header value; they answer
    500 when it is not. *)
Theorem inline_payload_is_one_segment
    (v : Variant) (w : World) (request_headers : Headers) (domain key : string)
    (st : gmap string (CacheEntry * Z)) (icon : Icon) (rest : list Icon)
    (payload : string) :
  validates v w st domain key ->
  valid_domain key = true ->
  discovered w key (forwarded request_headers) = icon :: rest ->
  Str.includes "data:image" (href icon) = true ->
  Str.split "," (href icon) !! 1%nat = Some payload ->
  nonempty payload = true ->
  let r := run w (GET v request_headers domain) st in
  List.filter is_retrieval (trace r) = [Call (BufferFromBase64 payload)]
  /\ List.filter is_fetch (trace r) = []
  /\ (Str.ascii_text (href icon) = true ->
      HeaderValue.valid (DataURI.media_type (href icon)) = true ->
      exists response,
        result r = Returns response
        /\ status response = 200
        /\ body response = Bytes (Buffer_from_base64 w payload))
  /\ (HeaderValue.valid (DataURI.media_type (href icon)) = false ->
      result r = Returns failed /\ status failed = 500).
Proof.
  intros R V D I S Hn r.
  assert (inline_payload (href icon) = Some payload) as P.
  { unfold inline_payload, DataURI.base64Data. rewrite I, S. by destruct payload. }
  destruct (inline_run v w request_headers domain key st icon rest payload R V D P)
    as (Hr & Hf & Valid & Invalid).
  split; [exact Hr |]. split; [exact Hf |]. split.
  - intros _ T. destruct (Valid T) as (response & E & Hs & Hb & _).
    exists response. by repeat split.
  - intros T. split; [by apply Invalid | reflexivity].
Qed.

Lemma inline_payload_is_one_segment_witness :
  let icon :=
    {| sizes := None;
       href := "https://cdn.example/i?u=data:image/png;base64,iVBORw0KGgo=,AAAA" |} in
  let w := Sample.offline [icon] in
  let r := run w (GET VariantB Sample.request_headers "example.com") ∅ in
  (validates VariantB w ∅ "example.com" "example.com"
   /\ valid_domain "example.com" = true
   /\ discovered w "example.com" (forwarded Sample.request_headers) = [icon]
   /\ Str.includes "data:image" (href icon) = true
   /\ Str.split "," (href icon) !! 1%nat = Some "iVBORw0KGgo="
   /\ nonempty "iVBORw0KGgo=" = true
   /\ Str.ascii_text (href icon) = true
   /\ DataURI.media_type (href icon) = "https://cdn.example/i?u=image/png"
   /\ HeaderValue.valid (DataURI.media_type (href icon)) = true)
  /\ List.filter is_fetch (trace r) = []
  /\ exists response,
       result r = Returns response
       /\ status response = 200
       /\ body response = Bytes Sample.png_signature.
Proof.
  intros icon w r.
  assert (validates VariantB w ∅ "example.com" "example.com") as R by reflexivity.
  assert (valid_domain "example.com" = true) as V by reflexivity.
  assert (discovered w "example.com" (forwarded Sample.request_headers) = [icon]) as D
    by reflexivity.
  assert (Str.includes "data:image" (href icon) = true) as I by reflexivity.
  assert (Str.split "," (href icon) !! 1%nat = Some "iVBORw0KGgo=") as S by reflexivity.
  split; [by repeat split |].
  pose proof (inline_payload_is_one_segment VariantB w Sample.request_headers
                "example.com" "example.com" ∅ icon [] "iVBORw0KGgo=" R V D I S eq_refl)
    as T.
  cbv zeta in T. destruct T as (_ & Hf & Valid & _).
  split; [exact Hf |]. exact (Valid eq_refl eq_refl).
Defined.

(** *** Inline icons without a semicolon *)

Lemma strip_prefix_forallb (q : ascii -> bool) (p s t : string) :
  Str.strip_prefix p s = Some t -> Str.forallb q s = true -> Str.forallb q t = true.
Proof.
  revert s. induction p as [| a p IH]; intros s; simpl.
  - by intros [= ->].
  - destruct s as [| b s]; [discriminate |].
    destruct (Ascii.eqb a b); [| discriminate].
    intros E H. simpl in H. apply andb_true_iff in H as [_ H]. by apply (IH s).
Qed.

Lemma lazy_to_semicolon_none (s : string) :
  Str.forallb (fun c => negb (Ascii.eqb c ";")) s = true ->
  DataURI.lazy_to_semicolon s = None.
Proof.
  induction s as [| c s IH]; simpl; [done |]. intros H.
  apply andb_true_iff in H as [Hc Hs]. apply negb_true_iff in Hc.
  rewrite Hc, (IH Hs). by destruct (DataURI.dot c).
Qed.

Lemma media_type_without_semicolon (href : string) :
  Str.forallb (fun c => negb (Ascii.eqb c ";")) href = true ->
  DataURI.media_type href = href.
Proof.
  induction href as [| c s IH]; intros H; rewrite media_type_unfold.
  - reflexivity.
  - assert (DataURI.match_here (String c s) = None) as ->.
    { unfold DataURI.match_here.
      destruct (Str.strip_prefix "data:image" (String c s)) as [t |] eqn:E;
        [| reflexivity].
      by rewrite (lazy_to_semicolon_none t (strip_prefix_forallb _ _ _ _ E H)). }
    simpl in H. apply andb_true_iff in H as [_ H]. by rewrite (IH H).
Qed.

(** X11.  The content type of an inline icon is read up to a semicolon.
    When the [href] of the selected inline icon has no semicolon at all (a
    data URI without parameters, such as [data:image/svg+xml,<payload>]),
    the replace leaves the [href] as it is, and both variants hand the whole
    [href] to the constructor as the [Content-Type]: the answer is a 200
    response with that content type when the [href] is ASCII text and a
    valid header value (no NUL, and no line terminator but at its ends), and
    500 when it is not a valid header value. *)
Theorem content_type_without_semicolon_is_the_href
    (v : Variant) (w : World) (request_headers : Headers) (domain key : string)
    (st : gmap string (CacheEntry * Z)) (icon : Icon) (rest : list Icon)
    (payload : string) :
  validates v w st domain key ->
  valid_domain key = true ->
  discovered w key (forwarded request_headers) = icon :: rest ->
  inline_payload (href icon) = Some payload ->
  Str.forallb (fun c => negb (Ascii.eqb c ";")) (href icon) = true ->
  let r := run w (GET v request_headers domain) st in
  DataURI.media_type (href icon) = href icon
  /\ (Str.ascii_text (href icon) = true ->
      HeaderValue.valid (href icon) = true ->
      exists response,
        result r = Returns response
        /\ status response = 200
        /\ header "Content-Type" response = Some (href icon))
  /\ (HeaderValue.valid (href icon) = false ->
      result r = Returns failed /\ status failed = 500).
Proof.
  intros R V D P NoSemi r.
  destruct (inline_run v w request_headers domain key st icon rest payload R V D P)
    as (_ & _ & Valid & Invalid).
  pose proof (media_type_without_semicolon _ NoSemi) as M.
  rewrite M in Valid, Invalid.
  split; [exact M |]. split.
  - intros _ T. destruct (Valid T) as (response & E & Hs & _ & Ht).
    exists response. by repeat split.
  - intros T. split; [by apply Invalid | reflexivity].
Qed.

Lemma content_type_without_semicolon_is_the_href_witness :
  let icon := {| sizes := None; href := "data:image/svg+xml,<svg/>" |} in
  let w := Sample.offline [icon] in
  let r := run w (GET VariantA Sample.request_headers "example.com") ∅ in
  (validates VariantA w ∅ "example.com" "example.com"
   /\ valid_domain "example.com" = true
   /\ discovered w "example.com" (forwarded Sample.request_headers) = [icon]
   /\ inline_payload (href icon) = Some "<svg/>"
   /\ Str.forallb (fun c => negb (Ascii.eqb c ";")) (href icon) = true
   /\ Str.ascii_text (href icon) = true
   /\ HeaderValue.valid (href icon) = true)
  /\ exists response,
       result r = Returns response
       /\ status response = 200
       /\ header "Content-Type" response = Some "data:image/svg+xml,<svg/>".
Proof.
  intros icon w r.
  assert (validates VariantA w ∅ "example.com" "example.com") as R
    by (split; reflexivity).
  assert (valid_domain "example.com" = true) as V by reflexivity.
  assert (discovered w "example.com" (forwarded Sample.request_headers) = [icon]) as D
    by reflexivity.
  assert (inline_payload (href icon) = Some "<svg/>") as P by reflexivity.
  assert (Str.forallb (fun c => negb (Ascii.eqb c ";")) (href icon) = true) as N
    by reflexivity.
  split; [by repeat split |].
  pose proof (content_type_without_semicolon_is_the_href VariantA w
                Sample.request_headers "example.com" "example.com" ∅ icon []
                "<svg/>" R V D P N) as T.
  cbv zeta in T. destruct T as (_ & Valid & _).
  exact (Valid eq_refl eq_refl).
Defined.

(** *** Outbound calls *)

Lemma discovery_calls_at_most_two w key h :
  (length (List.filter is_discovery (discovery_calls w key h)) <= 2)%nat.
Proof.
  rewrite discovery_calls_filter.
  destruct (found_over_http w key h); simpl; lia.
Qed.

Lemma discovery_calls_no_proxy_or_fetch w key h :
  List.filter (fun ev => is_proxy ev || is_fetch ev) (discovery_calls w key h) = [].
Proof.
  apply filter_none. intros ev I.
  destruct (discovery_calls_kind w key h ev I) as [-> | [-> | [-> | ->]]]; reflexivity.
Qed.

(** X12.  Whatever the request and the world, a request makes at most two
    discovery calls and at most one call that is the proxy or a remote
    fetch: it never fetches an icon and also calls the proxy. *)
Theorem outbound_calls_are_bounded
    (v : Variant) (w : World) (request_headers : Headers) (domain : string)
    (st : gmap string (CacheEntry * Z)) :
  let r := run w (GET v request_headers domain) st in
  (length (List.filter is_discovery (trace r)) <= 2)%nat
  /\ (length (List.filter (fun ev => is_proxy ev || is_fetch ev) (trace r)) <= 1)%nat.
Proof.
  intros r. subst r. destruct v; cbn [GET].
  - by_path_A w request_headers domain st;
      rewrite ?List.filter_app, ?length_app, ?discovery_calls_no_proxy_or_fetch;
      (split;
       [ try pose proof (discovery_calls_at_most_two w key
                           (forwarded request_headers)); simpl in *; lia
       | simpl; lia ]).
  - by_path_B w request_headers domain st;
      rewrite ?List.filter_app, ?length_app, ?discovery_calls_no_proxy_or_fetch;
      (split;
       [ try pose proof (discovery_calls_at_most_two w key
                           (forwarded request_headers)); simpl in *; lia
       | simpl; lia ]).
Qed.

(** *** The responses the component builds *)

(** X13.  A response that the component builds itself (any but the proxy's)
    has status 200, 404 or 500.  With 200 and with 404 (the placeholder
    included) it carries [Cache-Control: public, max-age=86400]; with 500 it
    carries no header at all. *)
Theorem own_responses_and_cache_control
    (v : Variant) (w : World) (request_headers : Headers) (domain : string)
    (st : gmap string (CacheEntry * Z)) (response : Response) :
  let r := run w (GET v request_headers domain) st in
  result r = Returns response ->
  existsb is_proxy (trace r) = false ->
  (status response = 500 /\ headers response = [])
  \/ ((status response = 200 \/ status response = 404)
      /\ header "Cache-Control" response = Some "public, max-age=86400").
Proof.
  intros r. subst r. destruct v; cbn [GET].
  - by_path_A w request_headers domain st; intros E NoProxy;
      try (rewrite proxy_call_in_trace in NoProxy; discriminate);
      try discriminate;
      injection E as <-;
      first [ left; by split
            | right; split; [by left | reflexivity]
            | right; split; [by right | reflexivity] ].
  - by_path_B w request_headers domain st; intros E NoProxy;
      try (rewrite proxy_call_in_trace in NoProxy; discriminate);
      try discriminate;
      injection E as <-;
      first [ left; by split
            | right; split; [by left | reflexivity]
            | right; split; [by right | reflexivity] ].
Qed.

Lemma own_responses_and_cache_control_witness :
  let w := Sample.online [Sample.ico_icon] Sample.not_found in
  let r := run w (GET VariantB Sample.request_headers "example.com") ∅ in
  (result r = Returns (svg404 "example.com")
   /\ existsb is_proxy (trace r) = false)
  /\ status (svg404 "example.com") = 404
  /\ header "Cache-Control" (svg404 "example.com") = Some "public, max-age=86400".
Proof.
  intros w r.
  assert (result r = Returns (svg404 "example.com")) as E by reflexivity.
  assert (existsb is_proxy (trace r) = false) as P by reflexivity.
  split; [by split |].
  destruct (own_responses_and_cache_control VariantB w Sample.request_headers
              "example.com" ∅ (svg404 "example.com") E P)
    as [[S _] | [_ H]]; [discriminate S |].
  split; [reflexivity | exact H].
Defined.

(** *** The placeholder *)

Lemma charAt_first (c : ascii) (rest : string) :
  Str.charAt 0 (String c rest) = String c EmptyString.
Proof. unfold Str.charAt. by destruct rest. Qed.

(** X14.  A domain whose normalized hostname fails the validation pattern is
    answered with the placeholder, in Variant A whatever the URL parser
    says of the domain, in Variant B when the parser accepts it: status
    404, the two headers [Cache-Control: public, max-age=86400] and
    [Content-Type: image/svg+xml], and as body the SVG text of the template
    with one letter in its [text] element, the first character of the
    domain as it was requested, in upper case when it is one of [a-z]
    (stated for a first character that is ASCII); the cache is left as it
    was and nothing is written to it. *)
Theorem invalid_domain_gets_placeholder
    (v : Variant) (w : World) (request_headers : Headers)
    (c : ascii) (rest key : string) (st : gmap string (CacheEntry * Z)) :
  let domain := String c rest in
  reachable st ->
  normalizes v w domain key ->
  valid_domain key = false ->
  (N_of_ascii c < 128)%N ->
  let r := run w (GET v request_headers domain) st in
  let letter :=
    if ((97 <=? N_of_ascii c) && (N_of_ascii c <=? 122))%N
    then ascii_of_N (N_of_ascii c - 32) else c in
  let q := String (ascii_of_N 34) EmptyString in
  let nl := String (ascii_of_N 10) EmptyString in
  exists response,
    result r = Returns response
    /\ status response = 404
    /\ headers response
       = [("Cache-Control", "public, max-age=86400");
          ("Content-Type", "image/svg+xml")]
    /\ body response
       = Text (nl
               +:+ "        <svg width=" +:+ q +:+ "100" +:+ q
               +:+ " height=" +:+ q +:+ "100" +:+ q
               +:+ " xmlns=" +:+ q +:+ "http://www.w3.org/2000/svg" +:+ q
               +:+ ">" +:+ nl
               +:+ "          <rect width=" +:+ q +:+ "100%" +:+ q
               +:+ " height=" +:+ q +:+ "100%" +:+ q
               +:+ " fill=" +:+ q +:+ "#cccccc" +:+ q +:+ "/>" +:+ nl
               +:+ "          <text x=" +:+ q +:+ "50%" +:+ q
               +:+ " y=" +:+ q +:+ "50%" +:+ q
               +:+ " font-size=" +:+ q +:+ "48" +:+ q
               +:+ " text-anchor=" +:+ q +:+ "middle" +:+ q
               +:+ " dominant-baseline=" +:+ q +:+ "middle" +:+ q
               +:+ " fill=" +:+ q +:+ "#000000" +:+ q
               +:+ ">" +:+ String letter EmptyString +:+ "</text>" +:+ nl
               +:+ "        </svg>" +:+ nl
               +:+ "      ")
    /\ cache_after r = st
    /\ List.filter is_cache_write (trace r) = [].
Proof.
  intros domain R N V Ascii r letter q nl. subst domain r letter q nl.
  exists (svg404 (String c rest)).
  assert (body (svg404 (String c rest))
          = Text (svgContent (String (Str.upper_char c) EmptyString))) as B.
  { unfold svg404. cbn [body]. by rewrite charAt_first. }
  destruct v; cbn [GET normalizes] in *.
  - subst key. rewrite (GET_A_invalid_reachable _ _ _ _ R V).
    cbn [result cache_after trace]. rewrite B. by repeat split.
  - rewrite (GET_B_invalid _ _ _ _ key N V).
    cbn [result cache_after trace]. rewrite B. by repeat split.
Qed.

Lemma invalid_domain_gets_placeholder_witness :
  let w := Sample.offline [Sample.png_icon] in
  let st := cache_after (run w (GET_A Sample.request_headers "example.com") ∅) in
  let a := run w (GET VariantA Sample.request_headers "not a domain") st in
  let b := run w (GET VariantB Sample.request_headers "not_a_domain") st in
  (reachable st
   /\ normalizes VariantA w "not a domain" "not a domain"
   /\ valid_domain "not a domain" = false
   /\ normalizes VariantB w "not_a_domain" "not_a_domain"
   /\ valid_domain "not_a_domain" = false
   /\ (N_of_ascii "n" < 128)%N)
  /\ (exists response,
        result a = Returns response
        /\ status response = 404
        /\ body response = Text (svgContent "N")
        /\ cache_after a = st)
  /\ (exists response,
        result b = Returns response
        /\ status response = 404
        /\ body response = Text (svgContent "N")).
Proof.
  intros w st a b.
  assert (reachable st) as R by (apply reachable_request, reachable_init).
  assert (normalizes VariantA w "not a domain" "not a domain") as NA by reflexivity.
  assert (valid_domain "not a domain" = false) as VA by reflexivity.
  assert (normalizes VariantB w "not_a_domain" "not_a_domain") as NB by reflexivity.
  assert (valid_domain "not_a_domain" = false) as VB by reflexivity.
  assert (N_of_ascii "n" < 128)%N as Ascii by (by vm_compute).
  split; [by repeat split |].
  pose proof (invalid_domain_gets_placeholder VariantA w Sample.request_headers
                "n" "ot a domain" "not a domain" st R NA VA Ascii) as A.
  pose proof (invalid_domain_gets_placeholder VariantB w Sample.request_headers
                "n" "ot_a_domain" "not_a_domain" st R NB VB Ascii) as B.
  cbv zeta in A, B.
  destruct A as (ra & Ha & Sa & _ & Ba & Ca & _).
  destruct B as (rb & Hb & Sb & _ & Bb & _).
  split.
  - exists ra. split; [exact Ha |]. split; [exact Sa |]. split; [exact Ba | exact Ca].
  - exists rb. split; [exact Hb |]. split; [exact Sb | exact Bb].
Defined.
